(** * Vuex store: module composition and dispatch engine

    A shallow embedding of the store core ([store.js], [store-util.js],
    [module/module-collection.js], [util.js]) and the properties of its
    commit / dispatch / subscribe / module-registration interface.

    Conventions of the embedding

    - JavaScript values are the inductive type [Val]; plain objects are
      association lists in property-insertion order.
    - A JavaScript exception is the [Throw] outcome of [Result].  The one
      other use of [Throw] is the error [Unrepresented], for a step whose
      result the value type cannot hold.
    - Observable effects (console output, calls of user callbacks) are
      recorded, in order, in the [trace] of the store.
    - User callbacks (mutation handlers, action handlers, getters,
      subscribers) are parameters of the model: a reference (their identity
      under [===]) together with a total function for what they compute.
      They do not re-enter the store and do not throw; exceptions come from
      the store's own code only.
    - [__DEV__] is a build-time constant that is not defined in the sources;
      it is a parameter of every definition that reads it. *)

From stdpp Require Import gmap strings list fin_maps pretty.

Set Warnings "-register-all".

Open Scope string_scope.
Open Scope list_scope.
Open Scope stdpp_scope.

(** ** Values *)

Inductive Val : Type :=
| VUndef
| VNull
| VBool (b : bool)
| VNum (z : Z)
| VStr (s : string)
| VArr (elems : list Val)
| VObj (props : list (string * Val))
| VFulfilled (t : nat) (v : Val)   (* a promise fulfilled with [v] at logical time [t] *)
| VRejected (t : nat) (e : Val)    (* a promise rejected with [e] at logical time [t] *)
| VPending.                        (* a promise that never settles *)

(** Exceptions raised by the store's own code.  [Unrepresented] is not an
    exception of the program: it ends a run at a step whose result the value
    type cannot hold (a named property put on an array or on a promise, which
    JavaScript accepts). *)
Inductive JsError : Type :=
| TypeError (msg : string)
| AssertError (msg : string)
| Unrepresented (what : string).

Inductive Result (A : Type) : Type :=
| Ok (a : A)
| Throw (e : JsError).
Arguments Ok {A} a.
Arguments Throw {A} e.

#[global] Instance Result_ret : MRet Result := fun _ a => Ok a.
#[global] Instance Result_bind : MBind Result := fun _ _ f r =>
  match r with Ok a => f a | Throw e => Throw e end.

Definition is_Ok {A} (r : Result A) : bool :=
  match r with Ok _ => true | Throw _ => false end.

(** Property tables of plain objects: [o[k]], [o[k] = v], [delete o[k]],
    [k in o].  An assignment to an existing key keeps its position, a new key
    goes last (the enumeration order of [Object.keys] for string keys). *)
Fixpoint alist_get {A} (k : string) (l : list (string * A)) : option A :=
  match l with
  | [] => None
  | (k', v) :: rest => if String.eqb k k' then Some v else alist_get k rest
  end.

Fixpoint alist_set {A} (k : string) (v : A) (l : list (string * A)) : list (string * A) :=
  match l with
  | [] => [(k, v)]
  | (k', v') :: rest =>
      if String.eqb k k' then (k, v) :: rest else (k', v') :: alist_set k v rest
  end.

Fixpoint alist_del {A} (k : string) (l : list (string * A)) : list (string * A) :=
  match l with
  | [] => []
  | (k', v') :: rest =>
      if String.eqb k k' then rest else (k', v') :: alist_del k rest
  end.

Definition alist_has {A} (k : string) (l : list (string * A)) : bool :=
  match alist_get k l with Some _ => true | None => false end.

(** JavaScript truthiness. *)
Definition truthy (v : Val) : bool :=
  match v with
  | VUndef | VNull => false
  | VBool b => b
  | VNum z => negb (Z.eqb z 0)
  | VStr s => negb (String.eqb s "")
  | _ => true
  end.

(** [v.k] for a value that is neither [undefined] nor [null]; own properties
    of plain objects only. *)
Definition prop (v : Val) (k : string) : Val :=
  match v with
  | VObj ps => default VUndef (alist_get k ps)
  | _ => VUndef
  end.

(** [v[k]] as an expression that may throw. *)
Definition get_member (v : Val) (k : string) : Result Val :=
  match v with
  | VUndef => Throw (TypeError "Cannot read properties of undefined")
  | VNull => Throw (TypeError "Cannot read properties of null")
  | _ => Ok (prop v k)
  end.

(** [v[k] = x] in strict code: a TypeError on [undefined], [null] and the
    primitives.  Named properties are held by plain objects only, so the
    assignment to an array or a promise, which JavaScript carries out, ends
    the run as [Unrepresented]. *)
Definition set_member (v : Val) (k : string) (x : Val) : Result Val :=
  match v with
  | VObj ps => Ok (VObj (alist_set k x ps))
  | VUndef => Throw (TypeError "Cannot set properties of undefined")
  | VNull => Throw (TypeError "Cannot set properties of null")
  | VBool _ | VNum _ | VStr _ => Throw (TypeError "Cannot create property")
  | VArr _ | VFulfilled _ _ | VRejected _ _ | VPending =>
      Throw (Unrepresented "a named property on an array or a promise")
  end.

(** [delete v[k]]. *)
Definition delete_member (v : Val) (k : string) : Result Val :=
  match v with
  | VObj ps => Ok (VObj (alist_del k ps))
  | VUndef => Throw (TypeError "Cannot convert undefined or null to object")
  | VNull => Throw (TypeError "Cannot convert undefined or null to object")
  | _ => Ok v
  end.

(** [isObject] and [isPromise] of util.js. *)
Definition isObject (obj : Val) : bool :=
  match obj with
  | VArr _ | VObj _ | VFulfilled _ _ | VRejected _ _ | VPending => true
  | _ => false
  end.

Definition isPromise (val : Val) : bool :=
  match val with
  | VFulfilled _ _ | VRejected _ _ | VPending => true
  | _ => false
  end.

(** [String(v)], the coercion applied to a property key. *)
Fixpoint to_key (v : Val) : string :=
  match v with
  | VUndef => "undefined"
  | VNull => "null"
  | VBool true => "true"
  | VBool false => "false"
  | VNum z => pretty z
  | VStr s => s
  | VArr l =>
      (fix join (xs : list Val) : string :=
         match xs with
         | [] => ""
         | x :: rest =>
             let here := match x with VUndef | VNull => "" | _ => to_key x end in
             match rest with [] => here | _ => here +:+ "," +:+ join rest end
         end) l
  | VObj _ => "[object Object]"
  | _ => "[object Promise]"
  end.

(** ** User callbacks and module configuration *)

(** What an action handler can read from the context object it is given:
    [{ state, rootState }].  The [dispatch], [commit], [getters] and
    [rootGetters] members are closures over the store; handlers of the model
    do not call back into the store, so they are not passed. *)
Record ActionContext : Type := mkActionContext {
  ctx_state : Val;
  ctx_rootState : Val
}.

(** A mutation [(state, payload) => void] edits its module's state object in
    place; [mf_run] gives the contents of that object afterwards. *)
Record MutationFn : Type := mkMutationFn {
  mf_ref : nat;
  mf_run : Val -> Val -> Val
}.

(** An action [(context, payload) => any]; [af_run] is what it returns. *)
Record ActionFn : Type := mkActionFn {
  af_ref : nat;
  af_run : ActionContext -> Val -> Val
}.

(** A getter, as a function of the local and the root state. *)
Record GetterFn : Type := mkGetterFn {
  gf_ref : nat;
  gf_run : Val -> Val -> Val
}.

(** The two shapes of an action declaration: a function, or
    [{ handler, root? }]. *)
Inductive ActionDef : Type :=
| ActionPlain (f : ActionFn)
| ActionObject (handler : ActionFn) (root : bool).

(** [action.root] and [action.handler || action] of [installModule]. *)
Definition action_root (a : ActionDef) : bool :=
  match a with ActionPlain _ => false | ActionObject _ r => r end.

Definition action_handler (a : ActionDef) : ActionFn :=
  match a with ActionPlain f => f | ActionObject h _ => h end.

(** The module configuration object
    [{ namespaced?, state, mutations?, actions?, getters?, modules? }].
    An absent table is the empty table; a state factory is given by the
    value it returns. *)
Inductive RawModule : Type := mkRawModule {
  raw_namespaced : bool;
  raw_state : Val;
  raw_mutations : list (string * MutationFn);
  raw_actions : list (string * ActionDef);
  raw_getters : list (string * GetterFn);
  raw_modules : list (string * RawModule)
}.

Module VModule.

(** Modelled from the spec: the [Module] class of [module/module.js], which
  is not among the sources.  The spec gives its data as
  [{ rawConfig, runtime: bool, state, children: map<key, Module>, context }];
  [context] is the local context, which is a function of the module's
  namespace and path and is rebuilt where it is used. *)
Inductive VuexModule : Type := mkModule {
runtime : bool;
_children : list (string * VuexModule);
_rawModule : RawModule;
state : Val
}.

Definition newModule (rawModule : RawModule) (runtime : bool) : VuexModule :=
{| runtime := runtime; _children := []; _rawModule := rawModule;
   state := raw_state rawModule |}.

(** Modelled from the spec: the accessors of [Module] used by the sources
  ([namespaced], [getChild], [hasChild], [addChild], [removeChild] and the
  [forEach...] iterators, which enumerate in declaration order). *)
Definition namespaced (m : VuexModule) : bool := raw_namespaced (_rawModule m).

Definition getChild (m : VuexModule) (key : string) : option VuexModule :=
alist_get key (_children m).

Definition hasChild (m : VuexModule) (key : string) : bool :=
alist_has key (_children m).

Definition addChild (key : string) (child : VuexModule) (m : VuexModule) : VuexModule :=
{| runtime := runtime m; _children := alist_set key child (_children m);
   _rawModule := _rawModule m; state := state m |}.

Definition removeChild (key : string) (m : VuexModule) : VuexModule :=
{| runtime := runtime m; _children := alist_del key (_children m);
   _rawModule := _rawModule m; state := state m |}.

Definition mutations_of (m : VuexModule) : list (string * MutationFn) :=
raw_mutations (_rawModule m).
Definition actions_of (m : VuexModule) : list (string * ActionDef) :=
raw_actions (_rawModule m).
Definition getters_of (m : VuexModule) : list (string * GetterFn) :=
raw_getters (_rawModule m).

End VModule.
Import VModule.

(** Array helpers: [path.slice(0, -1)] and [path[path.length - 1]]. *)
Definition slice_init (path : list string) : list string := removelast path.
Definition last_key (path : list string) : option string := last path.

(** A value used as a property key.  Reading past the end of an array gives
    [undefined], and [undefined] as a key is the string ['undefined']: this
    is the key that [parent.getChild(path[path.length - 1])] and the like
    look up when [path] is empty. *)
Definition property_key (key : option string) : string :=
  from_option id "undefined" key.

(** ** ModuleCollection (module/module-collection.js) *)

Module ModuleCollection.

Record t : Type := mk { root : VuexModule }.

(** [path.reduce((module, key) => module.getChild(key), this.root)]: a
    missing child gives [undefined], and a further step from [undefined]
    throws. *)
Fixpoint get_from (m : VuexModule) (path : list string) : Result (option VuexModule) :=
  match path with
  | [] => Ok (Some m)
  | key :: rest =>
      match getChild m key with
      | Some child => get_from child rest
      | None =>
          match rest with
          | [] => Ok None
          | _ => Throw (TypeError "Cannot read properties of undefined (reading 'getChild')")
          end
      end
  end.

Definition get (mc : t) (path : list string) : Result (option VuexModule) :=
  get_from (root mc) path.

(** [getNamespace]: the running [module] moves down one child per key;
    reading [namespaced] of a missing child throws. *)
Fixpoint getNamespace_from (m : VuexModule) (path : list string) (namespace : string)
  : Result string :=
  match path with
  | [] => Ok namespace
  | key :: rest =>
      match getChild m key with
      | Some child =>
          getNamespace_from child rest
            (namespace +:+ (if namespaced child then key +:+ "/" else ""))
      | None => Throw (TypeError "Cannot read properties of undefined (reading 'namespaced')")
      end
  end.

Definition getNamespace (mc : t) (path : list string) : Result string :=
  getNamespace_from (root mc) path "".

(** The tree with the module at [path] replaced by [f] of it (the effect of
    a method call on the object that [get] returned). *)
Fixpoint modify_at (m : VuexModule) (path : list string) (f : VuexModule -> VuexModule)
  : VuexModule :=
  match path with
  | [] => f m
  | key :: rest =>
      match getChild m key with
      | Some child => addChild key (modify_at child rest f) m
      | None => m
      end
  end.

(** [register(path, rawModule, runtime)], on a collection whose root may
    not be set yet ([None] inside the constructor).  [assertRawModule]
    checks the dynamic types of the declared handlers; the configuration
    type admits well-typed handlers only, so it always passes. *)
Fixpoint register_at (cur : option VuexModule) (path : list string)
    (rawModule : RawModule) (runtime : bool) {struct rawModule} : Result VuexModule :=
  let fresh := newModule rawModule runtime in
  root1 ←
    match path with
    | [] => Ok fresh
    | _ =>
        match cur with
        | None => Throw (TypeError "Cannot read properties of undefined (reading 'getChild')")
        | Some r =>
            parent ← get_from r (slice_init path);
            match parent, last_key path with
            | Some _, Some key => Ok (modify_at r (slice_init path) (addChild key fresh))
            | _, _ => Throw (TypeError "Cannot read properties of undefined (reading 'addChild')")
            end
        end
    end;
  (fix each (mods : list (string * RawModule)) (r : VuexModule) : Result VuexModule :=
     match mods with
     | [] => Ok r
     | (key, rawChildModule) :: rest =>
         r' ← register_at (Some r) (path ++ [key]) rawChildModule runtime;
         each rest r'
     end) (raw_modules rawModule) root1.

Definition register (mc : t) (path : list string) (rawModule : RawModule)
    (runtime : bool) : Result t :=
  r ← register_at (Some (root mc)) path rawModule runtime; Ok (mk r).

(** [new ModuleCollection(rawRootModule)]. *)
Definition create (rawRootModule : RawModule) : Result t :=
  r ← register_at None [] rawRootModule false; Ok (mk r).

Section WithBuild.
Variable __DEV__ : bool.

(** [unregister(path)]: the collection afterwards and the console
    output. *)
Definition unregister (mc : t) (path : list string) : Result (t * list string) :=
  parent ← get mc (slice_init path);
  match parent with
  | None => Throw (TypeError "Cannot read properties of undefined (reading 'getChild')")
  | Some p =>
      let key := property_key (last_key path) in
      match getChild p key with
      | None =>
          Ok (mc,
              if __DEV__
              then ["[vuex] trying to unregister module '" +:+ key
                      +:+ "', which is not registered"]
              else [])
      | Some child =>
          if negb (runtime child) then Ok (mc, [])
          else Ok (mk (modify_at (root mc) (slice_init path) (removeChild key)), [])
      end
  end.
End WithBuild.

(** [isRegistered(path)].  For the empty path the key is [undefined], so
    the root is asked for a child under the key ['undefined']. *)
Definition isRegistered (mc : t) (path : list string) : Result bool :=
  parent ← get mc (slice_init path);
  let key := property_key (last_key path) in
  match parent with
  | Some p => Ok (hasChild p key)
  | None => Ok false
  end.

End ModuleCollection.

(** ** Promises

    A promise is given by how it settles.  Logical time counts from the call
    that created the promise: [0] is "already settled when returned". *)

(** [Promise.resolve(v)] for a [v] that is not a promise. *)
Definition promise_resolve (v : Val) : Val := VFulfilled 0 v.

(** The earliest rejection among [ps]; the first one in array order when
    several fall on the same tick. *)
Fixpoint first_rejection (ps : list Val) : option (nat * Val) :=
  match ps with
  | [] => None
  | p :: rest =>
      match p, first_rejection rest with
      | VRejected t e, Some (t', e') => if Nat.leb t t' then Some (t, e) else Some (t', e')
      | VRejected t e, None => Some (t, e)
      | _, r => r
      end
  end.

(** The values and the latest settling time of [ps] when every element is
    fulfilled (an element that is not a promise counts as fulfilled at
    once). *)
Fixpoint all_fulfilled (ps : list Val) : option (nat * list Val) :=
  match ps with
  | [] => Some (0, [])
  | p :: rest =>
      match p, all_fulfilled rest with
      | VFulfilled t v, Some (t', vs) => Some (Nat.max t t', v :: vs)
      | VRejected _ _, _ => None
      | VPending, _ => None
      | v, Some (t', vs) => Some (t', v :: vs)
      | _, None => None
      end
  end.

(** [Promise.all(ps)]. *)
Definition promise_all (ps : list Val) : Val :=
  match first_rejection ps with
  | Some (t, e) => VRejected t e
  | None =>
      match all_fulfilled ps with
      | Some (t, vs) => VFulfilled t (VArr vs)
      | None => VPending
      end
  end.

(** ** The store *)

Inductive Hook : Type := HookBefore | HookAfter | HookError.

(** What the outside world observes of a run, in order. *)
Inductive Event : Type :=
| ConsoleError (msg : string)
| ConsoleWarn (msg : string)
| CallMutation (fn : nat) (localState payload : Val)
| CallSubscriber (fn : nat) (type payload : Val) (state : Val)
| CallAction (fn : nat) (context : ActionContext) (payload : Val)
| CallActionHook (h : Hook) (fn : nat) (type payload : Val) (state : Val) (error : option Val)
| StopScope (scope : nat).

(** The local context of a module is a record of closures over the store,
    the module's namespace and its path; it is represented by the two values
    it closes over. *)
Record LocalContext : Type := mkLocal {
  lc_namespace : string;
  lc_path : list string
}.

(** The closures pushed by [registerMutation], [registerAction] and stored by
    [registerGetter]: the raw handler plus the captured local context. *)
Record WrappedMutation : Type := mkWrappedMutation {
  wm_handler : MutationFn;
  wm_local : LocalContext
}.

Record WrappedAction : Type := mkWrappedAction {
  wa_handler : ActionFn;
  wa_local : LocalContext
}.

Record WrappedGetter : Type := mkWrappedGetter {
  wg_rawGetter : GetterFn;
  wg_local : LocalContext
}.

(** Identity of a subscriber object: one the caller made, or one the store
    allocated itself ([{ before: fn }] in [subscribeAction]). *)
Inductive ObjRef : Type :=
| UserRef (n : nat)
| StoreRef (n : nat).

Definition ObjRef_eqb (a b : ObjRef) : bool :=
  match a, b with
  | UserRef n, UserRef m => Nat.eqb n m
  | StoreRef n, StoreRef m => Nat.eqb n m
  | _, _ => false
  end.

(** An action subscriber [{ before?, after?, error? }]. *)
Record ActionSub : Type := mkActionSub {
  sub_ref : ObjRef;
  before : option nat;
  after : option nat;
  error : option nat
}.

Definition ActionSub_same (a b : ActionSub) : bool := ObjRef_eqb (sub_ref a) (sub_ref b).

(** The first argument of [subscribeAction]. *)
Inductive ActionSubArg : Type :=
| ArgFunction (fn : nat)
| ArgHooks (subs : ActionSub).

(** A module path argument: a string or an array of strings. *)
Inductive PathArg : Type :=
| PathString (s : string)
| PathArray (path : list string).

Definition path_of (p : PathArg) : list string :=
  match p with PathString s => [s] | PathArray path => path end.

Record Store : Type := mkStore {
  _committing : bool;
  _actions : gmap string (list WrappedAction);
  _actionSubscribers : list ActionSub;
  _mutations : gmap string (list WrappedMutation);
  _wrappedGetters : gmap string WrappedGetter;
  _modules : ModuleCollection.t;
  _modulesNamespaceMap : gmap string (list string);  (* the module, by its path *)
  _subscribers : list nat;
  _scope : option nat;
  strict : bool;
  _state : option Val;                    (* [this._state.data]; unset before the first reset *)
  getters : gmap string WrappedGetter;    (* the computed properties of [store.getters] *)
  trace : list Event;
  allocated : nat                         (* objects allocated by the store so far *)
}.

Definition with_committing (b : bool) (s : Store) : Store :=
  mkStore b (_actions s) (_actionSubscribers s) (_mutations s) (_wrappedGetters s)
    (_modules s) (_modulesNamespaceMap s) (_subscribers s) (_scope s) (strict s)
    (_state s) (getters s) (trace s) (allocated s).

Definition with_actions (x : gmap string (list WrappedAction)) (s : Store) : Store :=
  mkStore (_committing s) x (_actionSubscribers s) (_mutations s) (_wrappedGetters s)
    (_modules s) (_modulesNamespaceMap s) (_subscribers s) (_scope s) (strict s)
    (_state s) (getters s) (trace s) (allocated s).

Definition with_actionSubscribers (x : list ActionSub) (s : Store) : Store :=
  mkStore (_committing s) (_actions s) x (_mutations s) (_wrappedGetters s)
    (_modules s) (_modulesNamespaceMap s) (_subscribers s) (_scope s) (strict s)
    (_state s) (getters s) (trace s) (allocated s).

Definition with_mutations (x : gmap string (list WrappedMutation)) (s : Store) : Store :=
  mkStore (_committing s) (_actions s) (_actionSubscribers s) x (_wrappedGetters s)
    (_modules s) (_modulesNamespaceMap s) (_subscribers s) (_scope s) (strict s)
    (_state s) (getters s) (trace s) (allocated s).

Definition with_wrappedGetters (x : gmap string WrappedGetter) (s : Store) : Store :=
  mkStore (_committing s) (_actions s) (_actionSubscribers s) (_mutations s) x
    (_modules s) (_modulesNamespaceMap s) (_subscribers s) (_scope s) (strict s)
    (_state s) (getters s) (trace s) (allocated s).

Definition with_modules (x : ModuleCollection.t) (s : Store) : Store :=
  mkStore (_committing s) (_actions s) (_actionSubscribers s) (_mutations s) (_wrappedGetters s)
    x (_modulesNamespaceMap s) (_subscribers s) (_scope s) (strict s)
    (_state s) (getters s) (trace s) (allocated s).

Definition with_modulesNamespaceMap (x : gmap string (list string)) (s : Store) : Store :=
  mkStore (_committing s) (_actions s) (_actionSubscribers s) (_mutations s) (_wrappedGetters s)
    (_modules s) x (_subscribers s) (_scope s) (strict s)
    (_state s) (getters s) (trace s) (allocated s).

Definition with_subscribers (x : list nat) (s : Store) : Store :=
  mkStore (_committing s) (_actions s) (_actionSubscribers s) (_mutations s) (_wrappedGetters s)
    (_modules s) (_modulesNamespaceMap s) x (_scope s) (strict s)
    (_state s) (getters s) (trace s) (allocated s).

Definition with_scope (x : option nat) (s : Store) : Store :=
  mkStore (_committing s) (_actions s) (_actionSubscribers s) (_mutations s) (_wrappedGetters s)
    (_modules s) (_modulesNamespaceMap s) (_subscribers s) x (strict s)
    (_state s) (getters s) (trace s) (allocated s).

Definition with_state (x : option Val) (s : Store) : Store :=
  mkStore (_committing s) (_actions s) (_actionSubscribers s) (_mutations s) (_wrappedGetters s)
    (_modules s) (_modulesNamespaceMap s) (_subscribers s) (_scope s) (strict s)
    x (getters s) (trace s) (allocated s).

Definition with_getters (x : gmap string WrappedGetter) (s : Store) : Store :=
  mkStore (_committing s) (_actions s) (_actionSubscribers s) (_mutations s) (_wrappedGetters s)
    (_modules s) (_modulesNamespaceMap s) (_subscribers s) (_scope s) (strict s)
    (_state s) x (trace s) (allocated s).

Definition with_allocated (x : nat) (s : Store) : Store :=
  mkStore (_committing s) (_actions s) (_actionSubscribers s) (_mutations s) (_wrappedGetters s)
    (_modules s) (_modulesNamespaceMap s) (_subscribers s) (_scope s) (strict s)
    (_state s) (getters s) (trace s) x.

(** Append events to the trace. *)
Definition emit (evs : list Event) (s : Store) : Store :=
  mkStore (_committing s) (_actions s) (_actionSubscribers s) (_mutations s) (_wrappedGetters s)
    (_modules s) (_modulesNamespaceMap s) (_subscribers s) (_scope s) (strict s)
    (_state s) (getters s) (trace s ++ evs) (allocated s).

(** A method of the store: it runs on a store and either throws or returns a
    value and the store afterwards. *)
Definition Method (A : Type) : Type := Store -> Result (A * Store).

(** [list.forEach(f)] for an [f] that acts on the store. *)
Fixpoint forEach {A} (f : A -> Method unit) (l : list A) : Method unit :=
  fun s =>
    match l with
    | [] => Ok (tt, s)
    | x :: rest => '(_, s1) ← f x s; forEach f rest s1
    end.

(** [array.map(f)] for an [f] that acts on the store. *)
Fixpoint mapM {A B} (f : A -> Method B) (l : list A) : Method (list B) :=
  fun s =>
    match l with
    | [] => Ok ([], s)
    | x :: rest =>
        '(y, s1) ← f x s;
        '(ys, s2) ← mapM f rest s1;
        Ok (y :: ys, s2)
    end.

(** ** store-util.js *)

(** [subs.indexOf(fn)], with [same] for [===]; [None] is [-1]. *)
Fixpoint indexOf {A} (same : A -> A -> bool) (fn : A) (subs : list A) : option nat :=
  match subs with
  | [] => None
  | x :: rest => if same x fn then Some 0 else S <$> indexOf same fn rest
  end.

(** [genericSubscribe(fn, subs, options)]: the array afterwards.  The
    function it returns is [unsubscribe same fn], applied to the same
    array. *)
Definition genericSubscribe {A} (same : A -> A -> bool) (fn : A) (subs : list A)
    (options : Val) : list A :=
  match indexOf same fn subs with
  | None =>
      if truthy options && truthy (prop options "prepend")
      then fn :: subs
      else subs ++ [fn]
  | Some _ => subs
  end.

Definition unsubscribe {A} (same : A -> A -> bool) (fn : A) (subs : list A) : list A :=
  match indexOf same fn subs with
  | Some i => delete i subs
  | None => subs
  end.

(** [getNestedState(state, path)]. *)
Fixpoint getNestedState (state : Val) (path : list string) : Result Val :=
  match path with
  | [] => Ok state
  | key :: rest => s ← get_member state key; getNestedState s rest
  end.

(** The state tree after the object at [path] got the contents [v] (an
    in-place edit of an object reached through [getNestedState]). *)
Fixpoint update_nested (state : Val) (path : list string) (v : Val) : Val :=
  match path with
  | [] => v
  | key :: rest =>
      match state with
      | VObj ps => VObj (alist_set key (update_nested (prop state key) rest v) ps)
      | _ => state
      end
  end.

(** The double-quote character, for console messages. *)
Definition dquote : string := String (Ascii.ascii_of_nat 34) EmptyString.

Definition typeof (v : Val) : string :=
  match v with
  | VUndef => "undefined"
  | VBool _ => "boolean"
  | VNum _ => "number"
  | VStr _ => "string"
  | _ => "object"
  end.

Definition is_string (v : Val) : bool :=
  match v with VStr _ => true | _ => false end.

(** [store.state]. *)
Definition state (store : Store) : Result Val :=
  match _state store with
  | Some data => Ok data
  | None => Throw (TypeError "Cannot read properties of undefined (reading 'data')")
  end.

(** [store._withCommit(fn)]. *)
Definition _withCommit {A} (fn : Method A) : Method A :=
  fun store =>
    let committing := _committing store in
    '(a, store1) ← fn (with_committing true store);
    Ok (a, with_committing committing store1).

(** [local.state]. *)
Definition local_state (local : LocalContext) (store : Store) : Result Val :=
  s ← state store; getNestedState s (lc_path local).

(** [registerMutation(store, type, handler, local)]. *)
Definition registerMutation (store : Store) (type : string) (handler : MutationFn)
    (local : LocalContext) : Store :=
  let entry := default [] (_mutations store !! type) in
  with_mutations (<[type := entry ++ [mkWrappedMutation handler local]]> (_mutations store)) store.

(** [wrappedMutationHandler(payload)]: reads [local.state], calls the raw
    handler on it, and the state object holds the handler's edits
    afterwards. *)
Definition wrappedMutationHandler (w : WrappedMutation) (payload : Val) : Method unit :=
  fun store =>
    rootState ← state store;
    localState ← getNestedState rootState (lc_path (wm_local w));
    let store1 := emit [CallMutation (mf_ref (wm_handler w)) localState payload] store in
    if isObject localState
    then Ok (tt, with_state
                   (Some (update_nested rootState (lc_path (wm_local w))
                            (mf_run (wm_handler w) localState payload))) store1)
    else Ok (tt, store1).

(** The callback of [entry.forEach] in [commit]. *)
Definition commitIterator (payload : Val) (handler : WrappedMutation) : Method unit :=
  wrappedMutationHandler handler payload.

(** [registerAction(store, type, handler, local)]. *)
Definition registerAction (store : Store) (type : string) (handler : ActionFn)
    (local : LocalContext) : Store :=
  let entry := default [] (_actions store !! type) in
  with_actions (<[type := entry ++ [mkWrappedAction handler local]]> (_actions store)) store.

(** [wrappedActionHandler(payload)].  The store never sets [_devtoolHook];
    with a hook, [res.catch(err => { ...; throw err })] settles as [res]
    does. *)
Definition wrappedActionHandler (w : WrappedAction) (payload : Val) : Method Val :=
  fun store =>
    localState ← local_state (wa_local w) store;
    rootState ← state store;
    let context := mkActionContext localState rootState in
    let res := af_run (wa_handler w) context payload in
    let res := if negb (isPromise res) then promise_resolve res else res in
    Ok (res, emit [CallAction (af_ref (wa_handler w)) context payload] store).

(** [module.forEachChild(fn)] for an [fn] that acts on the root state object
    and the store: the children in declaration order. *)
Fixpoint forEachChild (fn : VuexModule -> string -> Val -> Store -> Result (Val * Store))
    (children : list (string * VuexModule)) (rootState : Val) (store : Store)
    : Result (Val * Store) :=
  match children with
  | [] => Ok (rootState, store)
  | (key, child) :: rest =>
      '(rootState, store) ← fn child key rootState store;
      forEachChild fn rest rootState store
  end.

(** The three registration loops of [installModule]. *)
Definition forEachMutation (fn : MutationFn -> string -> Store -> Store)
    (module : VuexModule) (store : Store) : Store :=
  fold_left (fun store '(key, mutation) => fn mutation key store) (mutations_of module) store.

Definition forEachAction (fn : ActionDef -> string -> Store -> Store)
    (module : VuexModule) (store : Store) : Store :=
  fold_left (fun store '(key, action) => fn action key store) (actions_of module) store.

Definition forEachGetter (fn : GetterFn -> string -> Store -> Store)
    (module : VuexModule) (store : Store) : Store :=
  fold_left (fun store '(key, getter) => fn getter key store) (getters_of module) store.

Section WithBuild.
Variable __DEV__ : bool.

(** [registerGetter(store, type, rawGetter, local)]. *)
Definition registerGetter (store : Store) (type : string) (rawGetter : GetterFn)
    (local : LocalContext) : Store :=
  match _wrappedGetters store !! type with
  | Some _ =>
      if __DEV__
      then emit [ConsoleError ("[vuex] duplicate getter key: " +:+ type)] store
      else store
  | None =>
      with_wrappedGetters (<[type := mkWrappedGetter rawGetter local]> (_wrappedGetters store)) store
  end.

(** [unifyObjectStyle(type, payload, options)]. *)
Definition unifyObjectStyle (type payload options : Val) : Result (Val * Val * Val) :=
  let '(type, payload, options) :=
    if isObject type && truthy (prop type "type")
    then (prop type "type", type, payload)
    else (type, payload, options) in
  if __DEV__ && negb (is_string type)
  then Throw (AssertError ("[vuex] expects string as the type, but found "
                             +:+ typeof type +:+ "."))
  else Ok (type, payload, options).

(** The state step of [installModule]: attach [module.state] under the
    parent's state object.  [moduleName in parentState] throws on a value
    that is not an object. *)
Definition attach_state (rootState : Val) (path : list string) (module : VuexModule)
    : Method Val :=
  fun store =>
    parentState ← getNestedState rootState (slice_init path);
    let moduleName := property_key (last_key path) in
    _withCommit (fun store =>
      store1 ←
        (if __DEV__
         then
           if isObject parentState
           then
             Ok (if match parentState with
                    | VObj ps => alist_has moduleName ps
                    | _ => false
                    end
                 then emit [ConsoleWarn ("[vuex] state field " +:+ dquote +:+ moduleName
                              +:+ dquote +:+ " was overridden by a module with the same name at "
                              +:+ dquote +:+ String.concat "." path +:+ dquote)] store
                 else store)
           else Throw (TypeError "Cannot use 'in' operator to search for a key in a non-object")
         else Ok store);
      parentState' ← set_member parentState moduleName (VModule.state module);
      Ok (update_nested rootState (slice_init path) parentState', store1)) store.

(** [installModule(store, rootState, path, module, hot)].  [rootState] is
    an object that the caller keeps using, so the function also returns it
    as it is afterwards. *)
Fixpoint installModule (store : Store) (rootState : Val) (path : list string)
    (module : VuexModule) (hot : bool) {struct module} : Result (Val * Store) :=
  let isRoot := match path with [] => true | _ => false end in
  namespace ← ModuleCollection.getNamespace (_modules store) path;
  let store :=
    if namespaced module
    then
      let store :=
        if bool_decide (is_Some (_modulesNamespaceMap store !! namespace)) && __DEV__
        then emit [ConsoleError ("[vuex] duplicate namespace " +:+ namespace
                     +:+ " for the namespaced module " +:+ String.concat "/" path)] store
        else store in
      with_modulesNamespaceMap (<[namespace := path]> (_modulesNamespaceMap store)) store
    else store in
  '(rootState, store) ←
    (if negb isRoot && negb hot
     then attach_state rootState path module store
     else Ok (rootState, store));
  let local := mkLocal namespace path in
  let store :=
    forEachMutation (fun mutation key store =>
                       let namespacedType := namespace +:+ key in
                       registerMutation store namespacedType mutation local)
      module store in
  let store :=
    forEachAction (fun action key store =>
                     let type := if action_root action then key else namespace +:+ key in
                     let handler := action_handler action in
                     registerAction store type handler local)
      module store in
  let store :=
    forEachGetter (fun getter key store =>
                     let namespacedType := namespace +:+ key in
                     registerGetter store namespacedType getter local)
      module store in
  forEachChild
    (fun child key rootState store =>
       installModule store rootState (path ++ [key]) child hot)
    (_children module) rootState store.

(** [resetStoreState(store, state, hot)].  Every wrapped getter becomes a
    computed property of a fresh [store.getters], created in a new effect
    scope; the old scope is stopped.  Nulling [oldState.data] on a hot
    reset touches the discarded reactive root only. *)
Definition resetStoreState (store : Store) (state : Val) (hot : bool) : Store :=
  let oldScope := _scope store in
  let scope := allocated store in
  let store := with_allocated (S scope) store in
  let store := with_getters (_wrappedGetters store) store in
  let store := with_state (Some state) store in
  let store := with_scope (Some scope) store in
  match oldScope with
  | Some old => emit [StopScope old] store
  | None => store
  end.

(** [resetStore(store, hot)]. *)
Definition resetStore (hot : bool) : Method unit :=
  fun store =>
    let store := with_actions ∅ store in
    let store := with_mutations ∅ store in
    let store := with_wrappedGetters ∅ store in
    let store := with_modulesNamespaceMap ∅ store in
    state0 ← state store;
    '(state1, store) ←
      installModule store state0 [] (ModuleCollection.root (_modules store)) true;
    Ok (tt, resetStoreState store state1 hot).

End WithBuild.

(** ** The Store class (store.js) *)

(** The function returned by [subscribe] / [subscribeAction]: a closure over
    the subscriber array of the store and the subscriber it was made for. *)
Inductive Unsubscribe : Type :=
| UnsubscribeMutation (fn : nat)
| UnsubscribeAction (subs : ActionSub).

(** Calling that function. *)
Definition call_unsubscribe (u : Unsubscribe) (store : Store) : Store :=
  match u with
  | UnsubscribeMutation fn =>
      with_subscribers (unsubscribe Nat.eqb fn (_subscribers store)) store
  | UnsubscribeAction subs =>
      with_actionSubscribers (unsubscribe ActionSub_same subs (_actionSubscribers store)) store
  end.

(** [subscribe(fn, options)]. *)
Definition subscribe (fn : nat) (options : Val) (store : Store) : Unsubscribe * Store :=
  (UnsubscribeMutation fn,
   with_subscribers (genericSubscribe Nat.eqb fn (_subscribers store) options) store).

(** [subscribeAction(fn, options)]: a function is wrapped into a new object
    [{ before: fn }]. *)
Definition subscribeAction (fn : ActionSubArg) (options : Val) (store : Store)
    : Unsubscribe * Store :=
  let '(subs, store) :=
    match fn with
    | ArgFunction f =>
        (mkActionSub (StoreRef (allocated store)) (Some f) None None,
         with_allocated (S (allocated store)) store)
    | ArgHooks o => (o, store)
    end in
  (UnsubscribeAction subs,
   with_actionSubscribers
     (genericSubscribe ActionSub_same subs (_actionSubscribers store) options) store).

(** [replaceState(state)]. *)
Definition replaceState (newState : Val) : Method unit :=
  _withCommit (fun store =>
    match _state store with
    | Some _ => Ok (tt, with_state (Some newState) store)
    | None => Throw (TypeError "Cannot set properties of undefined (setting 'data')")
    end).

(** [hasModule(path)]. *)
Definition hasModule (path : PathArg) (store : Store) : Result bool :=
  ModuleCollection.isRegistered (_modules store) (path_of path).

(** The hooks of one kind among the action subscribers:
    [subs.filter(sub => sub.before)] and the like. *)
Definition hooks_of (h : Hook) (subs : list ActionSub) : list nat :=
  omap (fun sub =>
          match h with
          | HookBefore => before sub
          | HookAfter => after sub
          | HookError => error sub
          end) subs.

(** One round of action subscribers,
    [hooks.forEach(sub => sub.hook(action, this.state, error))]. *)
Definition run_hooks (h : Hook) (type payload : Val) (err : option Val) : Method unit :=
  fun store =>
    forEach (fun fn store =>
               s ← state store;
               Ok (tt, emit [CallActionHook h fn type payload s err] store))
      (hooks_of h (_actionSubscribers store)) store.

Definition hook_name (h : Hook) : string :=
  match h with
  | HookBefore => "before"
  | HookAfter => "after"
  | HookError => "error"
  end.

Section StoreMethods.
Variable __DEV__ : bool.

(** [commit(_type, _payload, _options)]. *)
Definition commit (_type _payload _options : Val) : Method Val :=
  fun store =>
    '(type, payload, options) ← unifyObjectStyle __DEV__ _type _payload _options;
    match _mutations store !! to_key type with
    | None =>
        Ok (VUndef,
            if __DEV__
            then emit [ConsoleError ("[vuex] unknown mutation type: " +:+ to_key type)] store
            else store)
    | Some entry =>
        '(_, store) ← _withCommit (forEach (commitIterator payload) entry) store;
        '(_, store) ←
          forEach (fun sub store =>
                     s ← state store;
                     Ok (tt, emit [CallSubscriber sub type payload s] store))
            (_subscribers store) store;
        Ok (VUndef,
            if __DEV__ && truthy options && truthy (prop options "silent")
            then emit [ConsoleWarn ("[vuex] mutation type: " +:+ to_key type
                         +:+ ". Silent option has been removed. "
                         +:+ "Use the filter functionality in the vue-devtools")] store
            else store)
    end.

(** A round of action subscribers inside [try { ... } catch (e) { ... }]:
    an exception is reported on the console in a development build and
    swallowed. *)
Definition try_hooks (h : Hook) (type payload : Val) (err : option Val)
    (store : Store) : Store :=
  match run_hooks h type payload err store with
  | Ok (_, store1) => store1
  | Throw _ =>
      if __DEV__
      then emit [ConsoleWarn ("[vuex] error in " +:+ hook_name h +:+ " action subscribers: ");
                 ConsoleError "TypeError"] store
      else store
  end.

(** [dispatch(_type, _payload)]: the value returned to the caller.  For a
    known type this is the promise built by [new Promise(...)], which
    settles as [result] does. *)
Definition dispatch (_type _payload : Val) : Method Val :=
  fun store =>
    '(type, payload, _) ← unifyObjectStyle __DEV__ _type _payload VUndef;
    match _actions store !! to_key type with
    | None =>
        Ok (VUndef,
            if __DEV__
            then emit [ConsoleError ("[vuex] unknown action type: " +:+ to_key type)] store
            else store)
    | Some entry =>
        let store := try_hooks HookBefore type payload None store in
        '(result, store) ←
          (if Nat.ltb 1 (length entry)
           then
             '(results, store) ←
               mapM (fun handler => wrappedActionHandler handler payload) entry store;
             Ok (promise_all results, store)
           else
             match entry with
             | handler :: _ => wrappedActionHandler handler payload store
             | [] => Throw (TypeError "entry[0] is not a function")
             end);
        Ok (result, store)
    end.

(** The reaction that [dispatch] attaches with [result.then(...)], run on
    the store as it is when [result] settles: the "after" subscribers on
    fulfilment, the "error" subscribers on rejection. *)
Definition dispatch_settled (type payload : Val) (result : Val) (store : Store) : Store :=
  match result with
  | VFulfilled _ _ => try_hooks HookAfter type payload None store
  | VRejected _ e => try_hooks HookError type payload (Some e) store
  | _ => store
  end.

(** [registerModule(path, rawModule, options)]. *)
Definition registerModule (path : PathArg) (rawModule : RawModule) (preserveState : bool)
    : Method unit :=
  fun store =>
    let path := path_of path in
    _ ← (if __DEV__ && bool_decide (path = [])
         then Throw (AssertError
                       "[vuex] cannot register the root module by using registerModule.")
         else Ok tt);
    modules ← ModuleCollection.register (_modules store) path rawModule true;
    let store := with_modules modules store in
    state0 ← state store;
    module ← ModuleCollection.get (_modules store) path;
    match module with
    | None => Throw (TypeError "Cannot read properties of undefined (reading 'namespaced')")
    | Some module =>
        '(state1, store) ← installModule __DEV__ store state0 path module preserveState;
        let store := with_state (Some state1) store in
        Ok (tt, resetStoreState store state1 false)
    end.

(** [unregisterModule(path)]. *)
Definition unregisterModule (path : PathArg) : Method unit :=
  fun store =>
    let path := path_of path in
    '(modules, warnings) ← ModuleCollection.unregister __DEV__ (_modules store) path;
    let store := emit (ConsoleWarn <$> warnings) (with_modules modules store) in
    '(_, store) ←
      _withCommit (fun store =>
        s ← state store;
        parentState ← getNestedState s (slice_init path);
        parentState' ←
          delete_member parentState (property_key (last_key path));
        Ok (tt, with_state (Some (update_nested s (slice_init path) parentState')) store))
        store;
    resetStore __DEV__ false store.

(** [new Store(options)] for [options = { ...rawRootModule, strict }],
    without plugins. *)
Definition createStore (options : RawModule) (strict : bool) : Result Store :=
  modules ← ModuleCollection.create options;
  let store :=
    {| _committing := false; _actions := ∅; _actionSubscribers := [];
       _mutations := ∅; _wrappedGetters := ∅; _modules := modules;
       _modulesNamespaceMap := ∅; _subscribers := []; _scope := None;
       strict := strict; _state := None; getters := ∅; trace := [];
       allocated := 0 |} in
  let state0 := VModule.state (ModuleCollection.root modules) in
  '(state1, store) ←
    installModule __DEV__ store state0 [] (ModuleCollection.root modules) false;
  Ok (resetStoreState store state1 false).

End StoreMethods.

(** ** Example stores *)

(** The mutation [add (state, payload) { state.items.push(payload) }]. *)
Definition push_item : MutationFn :=
  mkMutationFn 1 (fun st payload =>
    match st with
    | VObj ps =>
        VObj (alist_set "items"
                (match prop st "items" with
                 | VArr items => VArr (items ++ [payload])
                 | other => other
                 end) ps)
    | other => other
    end).

(** The mutation [bump (state) { state.n = 1 }]. *)
Definition set_n : MutationFn :=
  mkMutationFn 2 (fun st _ =>
    match st with
    | VObj ps => VObj (alist_set "n" (VNum 1) ps)
    | other => other
    end).

Definition count_items : GetterFn := mkGetterFn 3 (fun st _ => prop st "items").
Definition count_root : GetterFn := mkGetterFn 4 (fun st _ => prop st "n").

(** Actions: one returns the plain value [42], one a promise fulfilled with
    its payload at tick 5, one a promise rejected at tick 2. *)
Definition answer : ActionFn := mkActionFn 5 (fun _ _ => VNum 42).
Definition later : ActionFn := mkActionFn 6 (fun _ payload => VFulfilled 5 payload).
Definition failing : ActionFn := mkActionFn 7 (fun _ _ => VRejected 2 (VStr "boom")).

(** [{ namespaced: true, state: { items: [] }, mutations: { add },
       getters: { count }, actions: { checkout, refresh: { root: true, handler } } }] *)
Definition cart_config : RawModule :=
  mkRawModule true (VObj [("items", VArr [])])
    [("add", push_item)]
    [("checkout", ActionPlain later); ("refresh", ActionObject answer true)]
    [("count", count_items)]
    [].

(** A module without a namespace that shares names with the root. *)
Definition shared_config : RawModule :=
  mkRawModule false (VObj [("items", VArr [])])
    [("bump", push_item)]
    [("shared", ActionPlain later)]
    [("count", count_items)]
    [].

(** The root configuration, with the modules [cart] and [misc]. *)
Definition root_config : RawModule :=
  mkRawModule false (VObj [("n", VNum 0)])
    [("bump", set_n)]
    [("shared", ActionPlain answer); ("a1", ActionPlain answer)]
    [("count", count_root)]
    [("cart", cart_config); ("misc", shared_config)].

Definition blank_store : Store :=
  {| _committing := false; _actions := ∅; _actionSubscribers := [];
     _mutations := ∅; _wrappedGetters := ∅;
     _modules := ModuleCollection.mk (newModule (mkRawModule false (VObj []) [] [] [] []) false);
     _modulesNamespaceMap := ∅; _subscribers := []; _scope := None;
     strict := false; _state := None; getters := ∅; trace := [];
     allocated := 0 |}.

Definition store_of (r : Result Store) : Store :=
  match r with Ok store => store | Throw _ => blank_store end.

(** [new Store(root_config)] in a development and in a production build. *)
Definition dev_store : Store := store_of (createStore true root_config false).
Definition prod_store : Store := store_of (createStore false root_config false).

(** The state of that store, and the entries of its routing tables under the
    types [bump] and [shared], which the root and [misc] both declare. *)
Definition initial_state : Val :=
  VObj [("n", VNum 0); ("cart", VObj [("items", VArr [])]);
        ("misc", VObj [("items", VArr [])])].

Definition bump_entry : list WrappedMutation :=
  [mkWrappedMutation set_n (mkLocal "" []);
   mkWrappedMutation push_item (mkLocal "" ["misc"])].

Definition shared_entry : list WrappedAction :=
  [mkWrappedAction answer (mkLocal "" []);
   mkWrappedAction later (mkLocal "" ["misc"])].

(** That store with its routing tables emptied, as [resetStore] has it just
    before it installs the root module again. *)
Definition unwired_store : Store :=
  with_modulesNamespaceMap ∅
    (with_wrappedGetters ∅ (with_mutations ∅ (with_actions ∅ dev_store))).

(** The result of that installation, and the module [cart] of the tree. *)
Definition reinstalled_store : Store :=
  store_of (r ← installModule true unwired_store initial_state []
                  (ModuleCollection.root (_modules dev_store)) true;
            Ok r.2).

Definition cart_module : VuexModule := newModule cart_config false.

(** The same store with two mutation subscribers and one action subscriber
    function. *)
Definition watched_store : Store :=
  (subscribeAction (ArgFunction 30) VUndef
     (subscribe 21 (VObj [("prepend", VBool true)])
        (subscribe 20 VUndef dev_store).2).2).2.

(** A root configuration with a module under the key ['undefined'], and the
    store built from it. *)
Definition undefined_key_config : RawModule :=
  mkRawModule false (VObj []) [] [] [] [("undefined", cart_config)].

Definition undefined_key_store : Store :=
  store_of (createStore true undefined_key_config false).

(** ** Statements under test

    Readings of the interface documentation that the theorems below compare
    with the code. *)

(** An unknown mutation type is reported on the console, and the commit
    returns with the state as it was. *)
Definition commit_unknown_logs (DEV : bool) (store : Store) (T : string)
    (payload options : Val) : Prop :=
  ∃ msg store',
    commit DEV (VStr T) payload options store = Ok (VUndef, store') ∧
    trace store' = trace store ++ [ConsoleError msg] ∧
    _state store' = _state store.

(** An unknown action type is reported on the console, and the dispatch
    returns a promise that is fulfilled with [undefined]. *)
Definition dispatch_unknown_resolves (DEV : bool) (store : Store) (T : string)
    (payload : Val) : Prop :=
  ∃ msg t store',
    dispatch DEV (VStr T) payload store = Ok (VFulfilled t VUndef, store') ∧
    trace store' = trace store ++ [ConsoleError msg].

(** Building a store whose modules declare one getter key twice fails. *)
Definition duplicate_getter_is_fatal (DEV : bool) (options : RawModule) : Prop :=
  ∃ e, createStore DEV options false = Throw e.

(** Subscribing [fn] a second time leaves the subscriber list of
    [subscribeAction] as it was after the first time. *)
Definition subscribeAction_deduplicates (store : Store) (fn : ActionSubArg)
    (options : Val) : Prop :=
  let once := (subscribeAction fn options store).2 in
  _actionSubscribers (subscribeAction fn options once).2 = _actionSubscribers once.

(** The empty path is never reported as a registered module. *)
Definition root_never_registered (store : Store) : Prop :=
  hasModule (PathArray []) store = Ok false.

(** Unregistering the module at [path] changes neither the module tree nor
    the state. *)
Definition unregister_is_noop (DEV : bool) (store : Store) (path : list string) : Prop :=
  ∃ store',
    unregisterModule DEV (PathArray path) store = Ok (tt, store') ∧
    hasModule (PathArray path) store' = Ok true ∧
    _modules store' = _modules store ∧
    _state store' = _state store.

(** What the handlers of an entry do to a state [s] when they are called
    once each, one after the other in the order of the entry, with
    [payload]: every handler gets the state of its module as the handlers
    before it left it ([getNestedState] at the module's path), and its edits
    are in the state that the next one sees.  The result is the state after
    the last handler and the record of the calls, in order; it is an error
    when the state of a handler's module cannot be reached. *)
Fixpoint handlers_in_order (payload : Val) (entry : list WrappedMutation) (s : Val)
  : Result (Val * list Event) :=
  match entry with
  | [] => Ok (s, [])
  | w :: rest =>
      localState ← getNestedState s (lc_path (wm_local w));
      let edited :=
        if isObject localState
        then update_nested s (lc_path (wm_local w))
               (mf_run (wm_handler w) localState payload)
        else s in
      '(final, calls) ← handlers_in_order payload rest edited;
      Ok (final, CallMutation (mf_ref (wm_handler w)) localState payload :: calls)
  end.

(** The console warning about the removed [silent] option. *)
Definition silent_warning (DEV : bool) (T : string) (options : Val) : list Event :=
  if DEV && truthy options && truthy (prop options "silent")
  then [ConsoleWarn ("[vuex] mutation type: " +:+ T
          +:+ ". Silent option has been removed. "
          +:+ "Use the filter functionality in the vue-devtools")]
  else [].

(** What a wrapped action handler returns for the raw handler's value
    [res]: [res] itself when it is a promise, else [Promise.resolve(res)]. *)
Definition as_promise (res : Val) : Val :=
  if isPromise res then res else promise_resolve res.

(** The raw return value of the handler [w] on the state [s0], and the record
    of its call. *)
Definition raw_result (s0 payload : Val) (w : WrappedAction) : Val :=
  match getNestedState s0 (lc_path (wa_local w)) with
  | Ok localState => af_run (wa_handler w) (mkActionContext localState s0) payload
  | Throw _ => VUndef
  end.

Definition action_call (s0 payload : Val) (w : WrappedAction) : Event :=
  match getNestedState s0 (lc_path (wa_local w)) with
  | Ok localState =>
      CallAction (af_ref (wa_handler w)) (mkActionContext localState s0) payload
  | Throw _ => CallAction (af_ref (wa_handler w)) (mkActionContext VUndef s0) payload
  end.

(** The notifications of one round of action subscribers. *)
Definition hook_calls (h : Hook) (type payload s : Val) (err : option Val)
    (subs : list ActionSub) : list Event :=
  map (fun fn => CallActionHook h fn type payload s err) (hooks_of h subs).

(** A promise fulfilled at tick [tv.1] with [tv.2]. *)
Definition fulfilled (tv : nat * Val) : Val := VFulfilled tv.1 tv.2.

(** The modules met on the way from [m] down [path], each with its key. *)
Fixpoint modules_along (m : VuexModule) (path : list string) : list (string * VuexModule) :=
  match path with
  | [] => []
  | key :: rest =>
      match getChild m key with
      | Some child => (key, child) :: modules_along child rest
      | None => []
      end
  end.

(** The namespace of a path as the documentation words it: the concatenation
    of [key + '/'] for each module along the path that is flagged
    namespaced. *)
Definition namespace_of (root : VuexModule) (path : list string) : string :=
  foldr String.append EmptyString
    (map (fun km : string * VuexModule => if namespaced km.2 then km.1 +:+ "/" else EmptyString)
       (modules_along root path)).

(** Membership of a wrapped handler in the routing tables. *)
Definition has_mutation (store : Store) (type : string) (w : WrappedMutation) : Prop :=
  ∃ entry, _mutations store !! type = Some entry ∧ w ∈ entry.

Definition has_action (store : Store) (type : string) (w : WrappedAction) : Prop :=
  ∃ entry, _actions store !! type = Some entry ∧ w ∈ entry.

Definition has_getter (store : Store) (type : string) : Prop :=
  is_Some (_wrappedGetters store !! type).

(** The declarations of the module [m], which sits at [path] under [root],
    are in the routing tables of [store] under their namespaced keys (and a
    [root: true] action under its bare key), bound to the local context of
    the module. *)
Definition registered (store : Store) (root : VuexModule) (path : list string)
    (m : VuexModule) : Prop :=
  let N := namespace_of root path in
  let local := mkLocal N path in
  (∀ K h, (K, h) ∈ mutations_of m → has_mutation store (N +:+ K) (mkWrappedMutation h local)) ∧
  (∀ K a, (K, a) ∈ actions_of m →
     has_action store (if action_root a then K else N +:+ K)
       (mkWrappedAction (action_handler a) local)) ∧
  (∀ K g, (K, g) ∈ getters_of m → has_getter store (N +:+ K)).

(** The routing tables of [b] hold what those of [a] hold, over the same
    module tree. *)
Definition grows (a b : Store) : Prop :=
  (∀ k w, has_mutation a k w → has_mutation b k w) ∧
  (∀ k w, has_action a k w → has_action b k w) ∧
  (∀ k, has_getter a k → has_getter b k) ∧
  _modules b = _modules a.

(** No key occurs twice among the children of a module, at any depth (the
    children are the properties of an object). *)
Fixpoint unique_keys (m : VuexModule) : bool :=
  bool_decide (NoDup (_children m).*1)
  && forallb (fun kc : string * VuexModule => unique_keys kc.2) (_children m).

(** The module tree that a configuration describes: the module of the
    configuration itself with, under each key of its [modules], the tree of
    the nested configuration (a later use of a key replaces an earlier
    one). *)
Fixpoint module_tree_of (rawModule : RawModule) (runtime : bool) : VuexModule :=
  fold_left
    (fun (m : VuexModule) (kr : string * RawModule) =>
       addChild kr.1 (module_tree_of kr.2 runtime) m)
    (raw_modules rawModule) (newModule rawModule runtime).

(** Every module of a tree carries the [runtime] flag [b]. *)
Fixpoint all_runtime (b : bool) (m : VuexModule) : bool :=
  Bool.eqb (runtime m) b
  && forallb (fun kc : string * VuexModule => all_runtime b kc.2) (_children m).

(** The module collection of [dev_store] after [register(['extra'],
    cart_config)]. *)
Definition grown_modules : ModuleCollection.t :=
  match ModuleCollection.register (_modules dev_store) ["extra"] cart_config true with
  | Ok mc => mc
  | Throw _ => _modules dev_store
  end.

(** What an installation leaves alone: everything of the store except the
    routing tables, the namespace map and the trace. *)
Definition keeps_runtime (a b : Store) : Prop :=
  _committing b = _committing a ∧
  _actionSubscribers b = _actionSubscribers a ∧
  _modules b = _modules a ∧
  _subscribers b = _subscribers a ∧
  _scope b = _scope a ∧
  strict b = strict a ∧
  _state b = _state a ∧
  getters b = getters a ∧
  allocated b = allocated a ∧
  ∃ evs, trace b = trace a ++ evs.

(** [watched_store] after [registerModule(['extra'], cart_config)]. *)
Definition grown_store : Store :=
  store_of (r ← registerModule true (PathArray ["extra"]) cart_config false watched_store;
            Ok r.2).

(** * Properties *)

(** ** Paths and namespaces *)

Lemma get_from_nil (m : VuexModule) : ModuleCollection.get_from m [] = Ok (Some m).
Proof. reflexivity. Qed.

(** C10, as stated, fails: on a store whose root configuration declares a
    module under the key ['undefined'], [isRegistered([])] and
    [hasModule([])] return true, because the missing last segment of the
    empty path is looked up as that key. *)
Lemma hasModule_root_true_with_undefined_child :
  createStore true undefined_key_config false = Ok undefined_key_store ∧
  ModuleCollection.isRegistered (_modules undefined_key_store) [] = Ok true ∧
  hasModule (PathArray []) undefined_key_store = Ok true ∧
  ¬ root_never_registered undefined_key_store.
Proof.
  assert (Hrun : hasModule (PathArray []) undefined_key_store = Ok true)
    by (vm_compute; reflexivity).
  split; [vm_compute; reflexivity|].
  split; [vm_compute; reflexivity|].
  split; [exact Hrun|].
  unfold root_never_registered. rewrite Hrun. discriminate.
Qed.

(** C10, amended. On every store whose root module has no child under the
    key ['undefined'], [isRegistered([])] on the module collection and
    [hasModule([])] return false, although the root module exists: both ask
    the root for a child under the key that the missing last segment
    becomes. *)
Theorem hasModule_root_false (store : Store) :
  getChild (ModuleCollection.root (_modules store)) "undefined" = None →
  ModuleCollection.isRegistered (_modules store) [] = Ok false ∧
  hasModule (PathArray []) store = Ok false ∧
  hasModule (PathArray []) store
  = Ok (hasChild (ModuleCollection.root (_modules store)) "undefined").
Proof.
  intros Hnone.
  assert (Hask : ModuleCollection.isRegistered (_modules store) []
                 = Ok (hasChild (ModuleCollection.root (_modules store)) "undefined"))
    by reflexivity.
  assert (Hno : hasChild (ModuleCollection.root (_modules store)) "undefined" = false).
  { unfold hasChild, alist_has. unfold getChild in Hnone. by rewrite Hnone. }
  unfold hasModule. simpl. rewrite Hask, Hno. done.
Qed.

Lemma hasModule_root_false_witness :
  ModuleCollection.isRegistered (_modules dev_store) [] = Ok false ∧
  hasModule (PathArray []) dev_store = Ok false ∧
  hasModule (PathArray []) dev_store
  = Ok (hasChild (ModuleCollection.root (_modules dev_store)) "undefined").
Proof.
  apply (hasModule_root_false dev_store).
  vm_compute. reflexivity.
Defined.

(** ** Record bookkeeping *)

Lemma with_committing_restore (store : Store) (x : option Val) (b : bool) :
  with_committing (_committing store) (with_state x (with_committing b store))
  = with_state x store.
Proof. destruct store; reflexivity. Qed.

(** ** replaceState *)

(** C7. On a constructed store, [replaceState(s)] returns normally and the
    [state] getter then yields [s] itself; nothing else of the store changes:
    the routing tables, the computed getters, the effect scope, the module
    tree and the trace are those of before, so neither the installation nor
    the reset has run. *)
Theorem replaceState_roundtrip (store : Store) (s old : Val) :
  _state store = Some old →
  ∃ store',
    replaceState s store = Ok (tt, store') ∧
    state store' = Ok s ∧
    store' = with_state (Some s) store ∧
    _mutations store' = _mutations store ∧
    _actions store' = _actions store ∧
    _wrappedGetters store' = _wrappedGetters store ∧
    getters store' = getters store ∧
    _scope store' = _scope store ∧
    _modules store' = _modules store ∧
    _committing store' = _committing store ∧
    trace store' = trace store.
Proof.
  intros Hstate.
  exists (with_state (Some s) store).
  split.
  - unfold replaceState, _withCommit. simpl. rewrite Hstate. simpl.
    by rewrite with_committing_restore.
  - by repeat split.
Qed.

Lemma replaceState_roundtrip_witness :
  ∃ store',
    replaceState (VObj [("n", VNum 7)]) dev_store = Ok (tt, store') ∧
    state store' = Ok (VObj [("n", VNum 7)]) ∧
    store' = with_state (Some (VObj [("n", VNum 7)])) dev_store ∧
    _mutations store' = _mutations dev_store ∧
    _actions store' = _actions dev_store ∧
    _wrappedGetters store' = _wrappedGetters dev_store ∧
    getters store' = getters dev_store ∧
    _scope store' = _scope dev_store ∧
    _modules store' = _modules dev_store ∧
    _committing store' = _committing dev_store ∧
    trace store' = trace dev_store.
Proof.
  apply (replaceState_roundtrip dev_store (VObj [("n", VNum 7)])
           initial_state).
  vm_compute. reflexivity.
Defined.

(** ** Unknown types *)

Lemma unifyObjectStyle_string (DEV : bool) (T : string) (payload options : Val) :
  unifyObjectStyle DEV (VStr T) payload options = Ok (VStr T, payload, options).
Proof. unfold unifyObjectStyle. simpl. by rewrite andb_false_r. Qed.

(** C4, as stated, fails in a production build: nothing is written to the
    console there. *)
Lemma commit_unknown_silent_in_production :
  _mutations prod_store !! "cart/unknownMutation" = None ∧
  commit false (VStr "cart/unknownMutation") VUndef VUndef prod_store
    = Ok (VUndef, prod_store) ∧
  ¬ commit_unknown_logs false prod_store "cart/unknownMutation" VUndef VUndef.
Proof.
  assert (Hrun : commit false (VStr "cart/unknownMutation") VUndef VUndef prod_store
                 = Ok (VUndef, prod_store)) by (vm_compute; reflexivity).
  split; [vm_compute; reflexivity|]. split; [exact Hrun|].
  intros (msg & store' & Hc & Htrace & _).
  rewrite Hrun in Hc. injection Hc as <-.
  apply (f_equal length) in Htrace. rewrite length_app in Htrace.
  simpl in Htrace. lia.
Qed.

(** C4, amended. For a type with no entry in the mutation table, [commit]
    returns [undefined] without raising; the store afterwards is the store of
    before, except that a development build has written the diagnostic to the
    console.  So no handler and no subscriber was called and the state is
    unchanged. *)
Theorem commit_unknown_type (DEV : bool) (store : Store) (T : string)
    (payload options : Val) :
  _mutations store !! T = None →
  let store' :=
    if DEV
    then emit [ConsoleError ("[vuex] unknown mutation type: " +:+ T)] store
    else store in
  commit DEV (VStr T) payload options store = Ok (VUndef, store') ∧
  _state store' = _state store ∧
  trace store' =
    trace store
      ++ (if DEV then [ConsoleError ("[vuex] unknown mutation type: " +:+ T)] else []).
Proof.
  intros Hnone. simpl. split.
  - unfold commit. rewrite unifyObjectStyle_string. simpl. by rewrite Hnone.
  - destruct DEV; simpl; by rewrite ?app_nil_r.
Qed.

Lemma commit_unknown_type_witness :
  let store' :=
    emit [ConsoleError ("[vuex] unknown mutation type: " +:+ "cart/unknownMutation")]
      dev_store in
  commit true (VStr "cart/unknownMutation") (VNum 1) VUndef dev_store = Ok (VUndef, store') ∧
  _state store' = _state dev_store ∧
  trace store' =
    trace dev_store
      ++ [ConsoleError ("[vuex] unknown mutation type: " +:+ "cart/unknownMutation")].
Proof.
  apply (commit_unknown_type true dev_store "cart/unknownMutation" (VNum 1) VUndef).
  vm_compute. reflexivity.
Defined.

(** C5, as stated, fails: for an unknown type [dispatch] returns the value
    [undefined], which is not a promise, and a production build logs
    nothing. *)
Lemma dispatch_unknown_returns_undefined :
  _actions prod_store !! "nope" = None ∧
  dispatch false (VStr "nope") VUndef prod_store = Ok (VUndef, prod_store) ∧
  ¬ dispatch_unknown_resolves false prod_store "nope" VUndef.
Proof.
  assert (Hrun : dispatch false (VStr "nope") VUndef prod_store = Ok (VUndef, prod_store))
    by (vm_compute; reflexivity).
  split; [vm_compute; reflexivity|]. split; [exact Hrun|].
  intros (msg & t & store' & Hd & _).
  rewrite Hrun in Hd. discriminate Hd.
Qed.

(** C5, amended. For a type with no entry in the action table, [dispatch]
    returns the plain value [undefined] (not a promise) without raising; the
    store afterwards is the store of before, except that a development build
    has written the diagnostic to the console.  So no action handler and no
    action subscriber was called. *)
Theorem dispatch_unknown_type (DEV : bool) (store : Store) (T : string) (payload : Val) :
  _actions store !! T = None →
  let store' :=
    if DEV
    then emit [ConsoleError ("[vuex] unknown action type: " +:+ T)] store
    else store in
  dispatch DEV (VStr T) payload store = Ok (VUndef, store') ∧
  isPromise VUndef = false ∧
  trace store' =
    trace store
      ++ (if DEV then [ConsoleError ("[vuex] unknown action type: " +:+ T)] else []).
Proof.
  intros Hnone. simpl. split; [|split; [reflexivity|]].
  - unfold dispatch. rewrite unifyObjectStyle_string. simpl. by rewrite Hnone.
  - destruct DEV; simpl; by rewrite ?app_nil_r.
Qed.

Lemma dispatch_unknown_type_witness :
  let store' :=
    emit [ConsoleError ("[vuex] unknown action type: " +:+ "nope")] watched_store in
  dispatch true (VStr "nope") (VNum 1) watched_store = Ok (VUndef, store') ∧
  isPromise VUndef = false ∧
  trace store' =
    trace watched_store ++ [ConsoleError ("[vuex] unknown action type: " +:+ "nope")].
Proof.
  apply (dispatch_unknown_type true watched_store "nope" (VNum 1)).
  vm_compute. reflexivity.
Defined.

(** ** Duplicate getters *)

(** C9, as stated, fails: a store whose root and whose module [misc] both
    declare the getter [count] is built without an exception; the development
    build reports the duplicate on the console and keeps the root's getter. *)
Lemma duplicate_getter_not_fatal :
  createStore true root_config false = Ok dev_store ∧
  trace dev_store = [ConsoleError "[vuex] duplicate getter key: count"] ∧
  wg_rawGetter <$> (_wrappedGetters dev_store !! "count") = Some count_root ∧
  ¬ duplicate_getter_is_fatal true root_config.
Proof.
  assert (Hrun : createStore true root_config false = Ok dev_store)
    by (vm_compute; reflexivity).
  split; [exact Hrun|].
  split; [vm_compute; reflexivity|].
  split; [vm_compute; reflexivity|].
  intros [e He]. rewrite Hrun in He. discriminate He.
Qed.

(** C9, amended. Registering a getter under a key that the getter table
    already holds is not fatal: [registerGetter] returns normally, a
    development build reports the duplicate on the console, the later getter
    is not registered and the first one stays in the table. *)
Theorem registerGetter_duplicate (DEV : bool) (store : Store) (type : string)
    (rawGetter : GetterFn) (local : LocalContext) (first : WrappedGetter) :
  _wrappedGetters store !! type = Some first →
  registerGetter DEV store type rawGetter local
  = (if DEV
     then emit [ConsoleError ("[vuex] duplicate getter key: " +:+ type)] store
     else store) ∧
  _wrappedGetters (registerGetter DEV store type rawGetter local) !! type = Some first ∧
  _wrappedGetters (registerGetter DEV store type rawGetter local) = _wrappedGetters store.
Proof.
  intros Hfirst. unfold registerGetter. rewrite Hfirst.
  destruct DEV; simpl; by rewrite ?Hfirst.
Qed.

Lemma registerGetter_duplicate_witness :
  registerGetter true dev_store "count" count_items (mkLocal "" ["misc"])
  = emit [ConsoleError ("[vuex] duplicate getter key: " +:+ "count")] dev_store ∧
  _wrappedGetters (registerGetter true dev_store "count" count_items (mkLocal "" ["misc"]))
    !! "count" = Some (mkWrappedGetter count_root (mkLocal "" [])) ∧
  _wrappedGetters (registerGetter true dev_store "count" count_items (mkLocal "" ["misc"]))
  = _wrappedGetters dev_store.
Proof.
  apply (registerGetter_duplicate true dev_store "count" count_items (mkLocal "" ["misc"])
           (mkWrappedGetter count_root (mkLocal "" []))).
  vm_compute. reflexivity.
Defined.

(** ** Subscriptions *)

Lemma indexOf_snoc_self {A} (same : A → A → bool) (fn : A) (subs : list A) :
  same fn fn = true → is_Some (indexOf same fn (subs ++ [fn])).
Proof.
  intros Hrefl. induction subs as [|x subs IH]; simpl.
  - rewrite Hrefl. eauto.
  - destruct (same x fn); [eauto|].
    destruct IH as [i Hi]. rewrite Hi. simpl. eauto.
Qed.

(** Through [genericSubscribe], a subscriber that is already in the array is
    not added again. *)
Lemma genericSubscribe_twice {A} (same : A → A → bool) (fn : A) (subs : list A)
    (options options' : Val) :
  same fn fn = true →
  genericSubscribe same fn (genericSubscribe same fn subs options) options'
  = genericSubscribe same fn subs options.
Proof.
  intros Hrefl. unfold genericSubscribe at 2.
  destruct (indexOf same fn subs) as [i|] eqn:Hi.
  - unfold genericSubscribe. by rewrite Hi.
  - unfold genericSubscribe at 2. rewrite Hi.
    destruct (truthy options && truthy (prop options "prepend")).
    + unfold genericSubscribe. cbn [indexOf]. by rewrite Hrefl.
    + unfold genericSubscribe.
      destruct (indexOf_snoc_self same fn subs Hrefl) as [j Hj]. by rewrite Hj.
Qed.

(** [subscribe] with the same function twice registers it once. *)
Lemma subscribe_twice (store : Store) (fn : nat) (options options' : Val) :
  _subscribers (subscribe fn options' (subscribe fn options store).2).2
  = _subscribers (subscribe fn options store).2.
Proof.
  simpl. apply genericSubscribe_twice. apply Nat.eqb_refl.
Qed.

(** [subscribeAction] with the same hooks object twice registers it once. *)
Lemma subscribeAction_hooks_twice (store : Store) (hooks : ActionSub)
    (options options' : Val) :
  _actionSubscribers
    (subscribeAction (ArgHooks hooks) options'
       (subscribeAction (ArgHooks hooks) options store).2).2
  = _actionSubscribers (subscribeAction (ArgHooks hooks) options store).2.
Proof.
  simpl. apply genericSubscribe_twice.
  unfold ActionSub_same. destruct (sub_ref hooks); simpl; apply Nat.eqb_refl.
Qed.

Lemma indexOf_lookup (fn : nat) (subs : list nat) (i : nat) :
  indexOf Nat.eqb fn subs = Some i → subs !! i = Some fn.
Proof.
  revert i. induction subs as [|x subs IH]; intros i; simpl; [done|].
  destruct (Nat.eqb x fn) eqn:Hx.
  - intros [= <-]. apply Nat.eqb_eq in Hx. by subst.
  - destruct (indexOf Nat.eqb fn subs) as [j|]; simpl; [|done].
    intros [= <-]. simpl. by apply IH.
Qed.

Lemma indexOf_None (fn : nat) (subs : list nat) :
  fn ∉ subs → indexOf Nat.eqb fn subs = None.
Proof.
  induction subs as [|x subs IH]; simpl; [done|].
  intros Hnot. apply not_elem_of_cons in Hnot as [Hne Hnot].
  destruct (Nat.eqb x fn) eqn:Hx.
  - apply Nat.eqb_eq in Hx. congruence.
  - by rewrite IH.
Qed.

(** Calling the function returned by [subscribe] a second time does nothing,
    on a subscriber list without repetitions (which is what [subscribe]
    maintains). *)
Lemma unsubscribe_twice (store : Store) (fn : nat) :
  NoDup (_subscribers store) →
  _subscribers (call_unsubscribe (UnsubscribeMutation fn)
                  (call_unsubscribe (UnsubscribeMutation fn) store))
  = _subscribers (call_unsubscribe (UnsubscribeMutation fn) store).
Proof.
  intros Hnodup. simpl. unfold unsubscribe at 1.
  assert (Hgone : fn ∉ unsubscribe Nat.eqb fn (_subscribers store)).
  { unfold unsubscribe.
    destruct (indexOf Nat.eqb fn (_subscribers store)) as [i|] eqn:Hi.
    - apply indexOf_lookup in Hi.
      intros Hin. apply list_elem_of_lookup in Hin as [j Hj].
      destruct (decide (j < i)) as [Hlt|Hge].
      + rewrite list_lookup_delete_lt in Hj by done.
        pose proof (NoDup_lookup _ _ _ _ Hnodup Hi Hj). lia.
      + rewrite list_lookup_delete_ge in Hj by lia.
        pose proof (NoDup_lookup _ _ _ _ Hnodup Hi Hj). lia.
    - intros Hin. apply list_elem_of_lookup in Hin as [j Hj].
      clear Hnodup. revert j Hj Hi.
      induction (_subscribers store) as [|x subs IH]; intros j Hj Hi; [done|].
      simpl in Hi. destruct (Nat.eqb x fn) eqn:Hx; [done|].
      destruct j as [|j]; simpl in Hj.
      + injection Hj as ->. by rewrite Nat.eqb_refl in Hx.
      + apply (IH j Hj). by destruct (indexOf Nat.eqb fn subs). }
  by rewrite (indexOf_None _ _ Hgone).
Qed.

(** C8 (divergence). [subscribeAction] wraps a function into a new object on
    every call, so the identity test of [genericSubscribe] never finds it:
    the same function subscribed twice is in the list twice, and an action
    notifies it twice. *)
Theorem subscribeAction_function_twice :
  let once := (subscribeAction (ArgFunction 30) VUndef dev_store).2 in
  let twice := (subscribeAction (ArgFunction 30) VUndef once).2 in
  hooks_of HookBefore (_actionSubscribers once) = [30] ∧
  hooks_of HookBefore (_actionSubscribers twice) = [30; 30] ∧
  ¬ subscribeAction_deduplicates dev_store (ArgFunction 30) VUndef.
Proof.
  split; [vm_compute; reflexivity|].
  split; [vm_compute; reflexivity|].
  unfold subscribeAction_deduplicates. intros Heq.
  apply (f_equal length) in Heq. vm_compute in Heq. discriminate Heq.
Qed.

(** ** Unregistering a module declared at construction *)

(** The module collection refuses to remove a module whose [runtime] flag is
    false: it is returned as it was, without console output. *)
Lemma unregister_static_module (DEV : bool) (mc : ModuleCollection.t)
    (path : list string) (parent child : VuexModule) (key : string) :
  ModuleCollection.get mc (slice_init path) = Ok (Some parent) →
  last_key path = Some key →
  getChild parent key = Some child →
  runtime child = false →
  ModuleCollection.unregister DEV mc path = Ok (mc, []) ∧
  ModuleCollection.isRegistered mc path = Ok true.
Proof.
  intros Hparent Hkey Hchild Hstatic.
  unfold ModuleCollection.unregister, ModuleCollection.isRegistered.
  rewrite Hparent, Hkey. simpl. rewrite Hchild, Hstatic. simpl.
  split; [done|]. unfold hasChild, alist_has.
  unfold getChild in Hchild. by rewrite Hchild.
Qed.

(** Modules registered by the constructor carry [runtime = false]. *)
Lemma dev_store_cart_is_static :
  runtime <$> getChild (ModuleCollection.root (_modules dev_store)) "cart" = Some false.
Proof. vm_compute. reflexivity. Qed.

(** C6 (divergence). On the store built from [root_config], whose module
    [cart] was declared at construction, [unregisterModule(['cart'])] leaves
    the module tree alone, so [hasModule(['cart'])] is still true, but it
    deletes [state.cart] all the same: the store is not unchanged. *)
Theorem unregisterModule_static_deletes_state :
  ∃ store',
    unregisterModule true (PathArray ["cart"]) dev_store = Ok (tt, store') ∧
    hasModule (PathArray ["cart"]) store' = Ok true ∧
    _modules store' = _modules dev_store ∧
    (s ← state dev_store; get_member s "cart") = Ok (VObj [("items", VArr [])]) ∧
    (s ← state store'; get_member s "cart") = Ok VUndef ∧
    state store' = Ok (VObj [("n", VNum 0); ("misc", VObj [("items", VArr [])])]) ∧
    ¬ unregister_is_noop true dev_store ["cart"].
Proof.
  set (after := store_of (store ← unregisterModule true (PathArray ["cart"]) dev_store;
                          Ok store.2)).
  assert (Hrun : unregisterModule true (PathArray ["cart"]) dev_store = Ok (tt, after))
    by (vm_compute; reflexivity).
  exists after.
  split; [exact Hrun|].
  split; [vm_compute; reflexivity|].
  split; [vm_compute; reflexivity|].
  split; [vm_compute; reflexivity|].
  split; [vm_compute; reflexivity|].
  split; [vm_compute; reflexivity|].
  intros (store' & Hun & _ & _ & Hstate).
  rewrite Hrun in Hun. injection Hun as <-.
  vm_compute in Hstate. discriminate Hstate.
Qed.

(** ** commit *)

Lemma emit_nil (store : Store) : emit [] store = store.
Proof. destruct store. unfold emit. simpl. by rewrite app_nil_r. Qed.

Lemma emit_emit (evs evs' : list Event) (store : Store) :
  emit evs' (emit evs store) = emit (evs ++ evs') store.
Proof. unfold emit. simpl. by rewrite app_assoc. Qed.

(** One wrapped mutation handler adds its call to the trace and touches
    nothing but the state. *)
Lemma wrappedMutationHandler_inv (w : WrappedMutation) (payload : Val)
    (store store' : Store) :
  wrappedMutationHandler w payload store = Ok (tt, store') →
  ∃ localState,
    trace store' = trace store ++ [CallMutation (mf_ref (wm_handler w)) localState payload] ∧
    is_Some (_state store') ∧
    _subscribers store' = _subscribers store ∧
    _committing store' = _committing store.
Proof.
  unfold wrappedMutationHandler, state.
  destruct (_state store) as [rootState|] eqn:Hstate; simpl; [|done].
  destruct (getNestedState rootState (lc_path (wm_local w))) as [localState|]; simpl; [|done].
  destruct (isObject localState); intros [= <-]; exists localState; simpl;
    rewrite ?Hstate; eauto.
Qed.

(** [registerMutation] puts the new handler last in the entry of its type:
    the order of an entry is the order of registration. *)
Lemma registerMutation_appends (store : Store) (type : string) (handler : MutationFn)
    (local : LocalContext) :
  _mutations (registerMutation store type handler local) !! type
  = Some (default [] (_mutations store !! type) ++ [mkWrappedMutation handler local]).
Proof. unfold registerMutation. simpl. by rewrite lookup_insert_eq. Qed.

(** The handlers of an entry are called one after the other, each once, in
    the order of the entry. *)
Lemma forEach_commitIterator_inv (payload : Val) (entry : list WrappedMutation)
    (store store' : Store) :
  forEach (commitIterator payload) entry store = Ok (tt, store') →
  is_Some (_state store) →
  ∃ calls,
    Forall2 (fun w ev => ∃ localState,
               ev = CallMutation (mf_ref (wm_handler w)) localState payload) entry calls ∧
    trace store' = trace store ++ calls ∧
    is_Some (_state store') ∧
    _subscribers store' = _subscribers store ∧
    _committing store' = _committing store.
Proof.
  unfold commitIterator.
  revert store. induction entry as [|w entry IH]; intros store; simpl.
  - intros [= <-] Hs. exists []. by rewrite app_nil_r.
  - destruct (wrappedMutationHandler w payload store) as [[[] store1]|] eqn:Hw; simpl; [|done].
    intros Hrest _.
    apply wrappedMutationHandler_inv in Hw as (ls & Htr & Hs1 & Hsub & Hcom).
    destruct (IH store1 Hrest Hs1) as (calls & Hcalls & Htr' & Hs' & Hsub' & Hcom').
    exists (CallMutation (mf_ref (wm_handler w)) ls payload :: calls).
    split; [constructor; eauto|].
    rewrite Htr', Htr, <- app_assoc. simpl.
    split; [done|]. split; [done|]. split; congruence.
Qed.

Lemma state_Some (store : Store) (s : Val) : _state store = Some s → state store = Ok s.
Proof. intros Hs. unfold state. by rewrite Hs. Qed.

(** The notification loop calls every subscriber, in list order, with the
    mutation and the current state. *)
Lemma forEach_subscribers (type payload s : Val) (subs : list nat) (store : Store) :
  _state store = Some s →
  forEach (fun sub store =>
             s ← state store;
             Ok (tt, emit [CallSubscriber sub type payload s] store)) subs store
  = Ok (tt, emit (map (fun sub => CallSubscriber sub type payload s) subs) store).
Proof.
  revert store. induction subs as [|sub subs IH]; intros store Hs; cbn [forEach map].
  - by rewrite emit_nil.
  - rewrite (state_Some _ _ Hs). simpl.
    rewrite IH by done. by rewrite emit_emit.
Qed.

(** One wrapped handler on a store: its call is recorded and the state
    holds its edit. *)
Lemma wrappedMutationHandler_run (w : WrappedMutation) (payload : Val) (store : Store)
    (s localState : Val) :
  _state store = Some s →
  getNestedState s (lc_path (wm_local w)) = Ok localState →
  wrappedMutationHandler w payload store
  = Ok (tt,
        with_state
          (Some (if isObject localState
                 then update_nested s (lc_path (wm_local w))
                        (mf_run (wm_handler w) localState payload)
                 else s))
          (emit [CallMutation (mf_ref (wm_handler w)) localState payload] store)).
Proof.
  intros Hs Hlocal. unfold wrappedMutationHandler.
  rewrite (state_Some _ _ Hs). simpl. rewrite Hlocal. simpl.
  destruct (isObject localState); [done|].
  f_equal. f_equal. destruct store. simpl in Hs. by subst.
Qed.

(** Running the entry through [commitIterator] on a store does to the state
    and to the trace what [handlers_in_order] says, and touches nothing
    else. *)
Lemma forEach_commitIterator_run (payload : Val) (entry : list WrappedMutation)
    (store : Store) (s final : Val) (calls : list Event) :
  _state store = Some s →
  handlers_in_order payload entry s = Ok (final, calls) →
  forEach (commitIterator payload) entry store
  = Ok (tt, with_state (Some final) (emit calls store)).
Proof.
  revert store s calls. induction entry as [|w entry IH]; intros store s calls Hs;
    cbn [forEach handlers_in_order].
  - intros [= <- <-]. rewrite emit_nil. f_equal. f_equal.
    destruct store. simpl in Hs. by subst.
  - destruct (getNestedState s (lc_path (wm_local w))) as [localState|] eqn:Hlocal;
      [|done].
    cbn [mbind Result_bind].
    set (edited := if isObject localState then _ else s).
    destruct (handlers_in_order payload entry edited) as [[final' calls']|] eqn:Hrest;
      [|done].
    intros [= <- <-].
    change (commitIterator payload w store) with (wrappedMutationHandler w payload store).
    rewrite (wrappedMutationHandler_run w payload store s localState Hs Hlocal).
    fold edited. cbn [mbind Result_bind].
    rewrite (IH (with_state (Some edited)
                   (emit [CallMutation (mf_ref (wm_handler w)) localState payload] store))
               edited calls' eq_refl Hrest).
    destruct store. unfold emit, with_state. simpl. by rewrite <- app_assoc.
Qed.

(** The record of [handlers_in_order] has one call per handler of the entry,
    in the order of the entry. *)
Lemma handlers_in_order_calls (payload : Val) (entry : list WrappedMutation)
    (s final : Val) (calls : list Event) :
  handlers_in_order payload entry s = Ok (final, calls) →
  Forall2 (fun w ev => ∃ localState,
             ev = CallMutation (mf_ref (wm_handler w)) localState payload) entry calls.
Proof.
  revert s calls. induction entry as [|w entry IH]; intros s calls; simpl.
  - intros [= _ <-]. constructor.
  - destruct (getNestedState s (lc_path (wm_local w))) as [localState|]; simpl; [|done].
    destruct (handlers_in_order payload entry _) as [[final' calls']|] eqn:Hrest;
      simpl; [|done].
    intros [= <- <-]. constructor; [eauto|by eapply IH].
Qed.

(** C1. For a type [T] with an entry in the mutation table of a constructed
    store, when the handlers of the entry run to completion on the store's
    state, [commit(T, payload)] returns normally, and what it did, in order,
    is: it called every handler of the entry once, in the order of the entry
    (the order of registration, as [registerMutation] appends), each on the
    state of its module as the handlers before it left it, and the state
    holds their edits; and then, after all of them, it notified every
    subscriber once with the mutation [{type: T, payload}] and that final
    state.  Nothing else of the store has changed, and all of it has
    happened when [commit] returns. *)
Theorem commit_handlers_then_subscribers (DEV : bool) (store : Store) (T : string)
    (payload options : Val) (entry : list WrappedMutation) (s0 final : Val)
    (calls : list Event) :
  _mutations store !! T = Some entry →
  _state store = Some s0 →
  handlers_in_order payload entry s0 = Ok (final, calls) →
  let notifications :=
    map (fun sub => CallSubscriber sub (VStr T) payload final) (_subscribers store) in
  let store' :=
    with_state (Some final)
      (emit (calls ++ notifications ++ silent_warning DEV T options) store) in
  commit DEV (VStr T) payload options store = Ok (VUndef, store') ∧
  state store' = Ok final ∧
  trace store' = trace store ++ calls ++ notifications ++ silent_warning DEV T options ∧
  Forall2 (fun w ev => ∃ localState,
             ev = CallMutation (mf_ref (wm_handler w)) localState payload) entry calls ∧
  _committing store' = _committing store.
Proof.
  intros Hentry Hs0 Hrun. simpl.
  split; [|split; [done|split; [done|split; [|done]]]].
  - unfold commit. rewrite unifyObjectStyle_string. simpl. rewrite Hentry.
    unfold _withCommit.
    rewrite (forEach_commitIterator_run payload entry (with_committing true store)
               s0 final calls Hs0 Hrun). simpl.
    rewrite forEach_subscribers with (s := final) by done. simpl.
    unfold silent_warning.
    destruct (DEV && truthy options && truthy (prop options "silent"));
      destruct store; unfold emit, with_state, with_committing; simpl;
      by rewrite ?app_nil_r, <- ?app_assoc.
  - by eapply handlers_in_order_calls.
Qed.

Lemma commit_handlers_then_subscribers_witness :
  let final :=
    VObj [("n", VNum 1); ("cart", VObj [("items", VArr [])]);
          ("misc", VObj [("items", VArr [VStr "x"])])] in
  let calls :=
    [CallMutation 2 initial_state (VStr "x");
     CallMutation 1 (VObj [("items", VArr [])]) (VStr "x")] in
  let notifications :=
    map (fun sub => CallSubscriber sub (VStr "bump") (VStr "x") final)
      (_subscribers watched_store) in
  let store' :=
    with_state (Some final)
      (emit (calls ++ notifications ++ silent_warning true "bump" VUndef) watched_store) in
  commit true (VStr "bump") (VStr "x") VUndef watched_store = Ok (VUndef, store') ∧
  state store' = Ok final ∧
  trace store' =
    trace watched_store ++ calls ++ notifications ++ silent_warning true "bump" VUndef ∧
  Forall2 (fun w ev => ∃ localState,
             ev = CallMutation (mf_ref (wm_handler w)) localState (VStr "x"))
    bump_entry calls ∧
  _committing store' = _committing watched_store.
Proof.
  apply (commit_handlers_then_subscribers true watched_store "bump" (VStr "x") VUndef
           bump_entry initial_state).
  - vm_compute. reflexivity.
  - vm_compute. reflexivity.
  - vm_compute. reflexivity.
Defined.

(** ** dispatch *)

Lemma as_promise_isPromise (res : Val) : isPromise (as_promise res) = true.
Proof. unfold as_promise. by destruct res. Qed.

(** [registerAction] puts the new handler last in the entry of its type. *)
Lemma registerAction_appends (store : Store) (type : string) (handler : ActionFn)
    (local : LocalContext) :
  _actions (registerAction store type handler local) !! type
  = Some (default [] (_actions store !! type) ++ [mkWrappedAction handler local]).
Proof. unfold registerAction. simpl. by rewrite lookup_insert_eq. Qed.

(** A wrapped action handler calls the raw handler once and returns its
    value as a promise. *)
Lemma wrappedActionHandler_run (w : WrappedAction) (payload s0 : Val) (store : Store) :
  _state store = Some s0 →
  is_Ok (getNestedState s0 (lc_path (wa_local w))) = true →
  wrappedActionHandler w payload store
  = Ok (as_promise (raw_result s0 payload w), emit [action_call s0 payload w] store).
Proof.
  intros Hs Hlocal.
  unfold wrappedActionHandler, local_state, raw_result, action_call, as_promise.
  rewrite (state_Some _ _ Hs). simpl.
  destruct (getNestedState s0 (lc_path (wa_local w))) as [ls|]; [|done]. simpl.
  by destruct (isPromise (af_run (wa_handler w) (mkActionContext ls s0) payload)).
Qed.

Lemma mapM_wrappedActionHandler (entry : list WrappedAction) (payload s0 : Val)
    (store : Store) :
  _state store = Some s0 →
  Forall (fun w => is_Ok (getNestedState s0 (lc_path (wa_local w))) = true) entry →
  mapM (fun handler => wrappedActionHandler handler payload) entry store
  = Ok (map (fun w => as_promise (raw_result s0 payload w)) entry,
        emit (map (action_call s0 payload) entry) store).
Proof.
  intros Hs Hall. revert store Hs.
  induction Hall as [|w entry Hw Hall IH]; intros store Hs; cbn [mapM map].
  - by rewrite emit_nil.
  - rewrite (wrappedActionHandler_run w payload s0 store Hs Hw). simpl.
    rewrite IH by done. simpl. by rewrite emit_emit.
Qed.

Lemma run_hooks_ok (h : Hook) (type payload s : Val) (err : option Val) (store : Store) :
  _state store = Some s →
  run_hooks h type payload err store
  = Ok (tt, emit (hook_calls h type payload s err (_actionSubscribers store)) store).
Proof.
  intros Hs. unfold run_hooks, hook_calls.
  generalize (hooks_of h (_actionSubscribers store)) as fns.
  intros fns. revert store Hs.
  induction fns as [|fn fns IH]; intros store Hs; cbn [forEach map].
  - by rewrite emit_nil.
  - rewrite (state_Some _ _ Hs). simpl.
    rewrite IH by done. by rewrite emit_emit.
Qed.

(** [Promise.all] of promises is fulfilled only when each of them is, with
    their values in order and not before the last of them. *)
Lemma all_fulfilled_inv (ps : list Val) (t : nat) (vs : list Val) :
  Forall (fun p => isPromise p = true) ps →
  all_fulfilled ps = Some (t, vs) →
  ∃ tvs, ps = map fulfilled tvs ∧ vs = tvs.*2 ∧ Forall (fun ti => (ti ≤ t)%nat) tvs.*1.
Proof.
  intros Hps. revert t vs.
  induction Hps as [|p ps Hp Hps IH]; intros t vs; simpl.
  - intros [= <- <-]. by exists [].
  - destruct p; try done.
    destruct (all_fulfilled ps) as [[t' vs']|]; [|done].
    intros [= <- <-].
    destruct (IH t' vs' eq_refl) as (tvs & -> & -> & Hle).
    exists ((t0, p) :: tvs). simpl. split; [done|]. split; [done|].
    constructor; [lia|]. eapply Forall_impl; [exact Hle|]. simpl. lia.
Qed.

Lemma all_fulfilled_map (tvs : list (nat * Val)) :
  first_rejection (map fulfilled tvs) = None ∧
  ∃ t, all_fulfilled (map fulfilled tvs) = Some (t, tvs.*2).
Proof.
  induction tvs as [|[t v] tvs [IH1 [t' IH2]]]; simpl.
  - eauto.
  - rewrite IH1, IH2. eauto.
Qed.

Lemma promise_all_fulfilled_inv (ps : list Val) (t : nat) (v : Val) :
  Forall (fun p => isPromise p = true) ps →
  promise_all ps = VFulfilled t v →
  ∃ tvs, ps = map fulfilled tvs ∧ v = VArr tvs.*2 ∧ Forall (fun ti => (ti ≤ t)%nat) tvs.*1.
Proof.
  intros Hps. unfold promise_all.
  destruct (first_rejection ps) as [[t' e]|]; [done|].
  destruct (all_fulfilled ps) as [[t' vs]|] eqn:Hall; [|done].
  intros [= <- <-].
  destruct (all_fulfilled_inv ps t' vs Hps Hall) as (tvs & ? & ? & ?).
  exists tvs. by subst.
Qed.

Lemma promise_all_isPromise (ps : list Val) : isPromise (promise_all ps) = true.
Proof.
  unfold promise_all.
  destruct (first_rejection ps) as [[t e]|]; [done|].
  by destruct (all_fulfilled ps) as [[t vs]|].
Qed.

(** C3. For a type [T] with a non-empty entry in the action table of a
    constructed store on which the handlers' local states resolve,
    [dispatch(T, payload)] returns a promise after notifying the "before"
    subscribers and calling every handler once, in entry order.  Every
    handler's return value is turned into a promise: kept when it is one,
    wrapped by [Promise.resolve] when it is a plain value.  With exactly one
    handler the returned promise settles as that handler's promise does, with
    its value as it is (no list around it).  With more than one handler it is
    [Promise.all] of the handlers' promises: it is fulfilled only if every
    handler's promise is, not before the last of them, with the list of their
    values in entry order; and whenever all of them are fulfilled, so is it,
    with that list. *)
Theorem dispatch_results (DEV : bool) (store : Store) (T : string) (payload : Val)
    (entry : list WrappedAction) (s0 : Val) :
  _actions store !! T = Some entry →
  entry ≠ [] →
  _state store = Some s0 →
  Forall (fun w => is_Ok (getNestedState s0 (lc_path (wa_local w))) = true) entry →
  ∃ result store',
    dispatch DEV (VStr T) payload store = Ok (result, store') ∧
    isPromise result = true ∧
    trace store' =
      trace store
        ++ hook_calls HookBefore (VStr T) payload s0 None (_actionSubscribers store)
        ++ map (action_call s0 payload) entry ∧
    (∀ w, entry = [w] →
       result = (if isPromise (raw_result s0 payload w)
                 then raw_result s0 payload w
                 else VFulfilled 0 (raw_result s0 payload w))) ∧
    (1 < length entry →
       result = promise_all (map (fun w => as_promise (raw_result s0 payload w)) entry) ∧
       (∀ t v, result = VFulfilled t v →
          ∃ tvs, map (fun w => as_promise (raw_result s0 payload w)) entry = map fulfilled tvs ∧
                 v = VArr tvs.*2 ∧ Forall (fun ti => (ti ≤ t)%nat) tvs.*1) ∧
       (∀ tvs, map (fun w => as_promise (raw_result s0 payload w)) entry = map fulfilled tvs →
          ∃ t, result = VFulfilled t (VArr tvs.*2))).
Proof.
  intros Hentry Hne Hs0 Hlocal.
  unfold dispatch. rewrite unifyObjectStyle_string. simpl. rewrite Hentry.
  unfold try_hooks. rewrite (run_hooks_ok _ _ _ s0 _ _ Hs0).
  set (store1 := emit _ store).
  assert (Hs1 : _state store1 = Some s0) by done.
  destruct (Nat.ltb 1 (length entry)) eqn:Hlen.
  - rewrite (mapM_wrappedActionHandler entry payload s0 store1 Hs1 Hlocal). simpl.
    eexists _, _. split; [reflexivity|].
    split; [apply promise_all_isPromise|].
    split; [simpl; by rewrite <- app_assoc|].
    split.
    { intros w ->. simpl in Hlen. done. }
    intros _. split; [done|]. split.
    + intros t v Hres. apply promise_all_fulfilled_inv; [|done].
      apply Forall_map, Forall_forall. intros w _. apply as_promise_isPromise.
    + intros tvs Htvs. unfold promise_all. rewrite Htvs.
      destruct (all_fulfilled_map tvs) as [-> [t ->]]. eauto.
  - destruct entry as [|w entry]; [done|].
    destruct entry as [|w' entry]; [|simpl in Hlen; done].
    apply Forall_inv in Hlocal.
    rewrite (wrappedActionHandler_run w payload s0 store1 Hs1 Hlocal). simpl.
    eexists _, _. split; [reflexivity|].
    split; [apply as_promise_isPromise|].
    split; [simpl; by rewrite <- app_assoc|].
    split.
    { intros w0 [= <-]. reflexivity. }
    simpl. lia.
Qed.

Lemma dispatch_results_witness :
  ∃ result store',
    dispatch true (VStr "shared") (VStr "p") watched_store = Ok (result, store') ∧
    isPromise result = true ∧
    trace store' =
      trace watched_store
        ++ hook_calls HookBefore (VStr "shared") (VStr "p") initial_state None
             (_actionSubscribers watched_store)
        ++ map (action_call initial_state (VStr "p")) shared_entry ∧
    (∀ w, shared_entry = [w] →
       result = (if isPromise (raw_result initial_state (VStr "p") w)
                 then raw_result initial_state (VStr "p") w
                 else VFulfilled 0 (raw_result initial_state (VStr "p") w))) ∧
    (1 < length shared_entry →
       result = promise_all
                  (map (fun w => as_promise (raw_result initial_state (VStr "p") w))
                     shared_entry) ∧
       (∀ t v, result = VFulfilled t v →
          ∃ tvs, map (fun w => as_promise (raw_result initial_state (VStr "p") w))
                   shared_entry = map fulfilled tvs ∧
                 v = VArr tvs.*2 ∧ Forall (fun ti => (ti ≤ t)%nat) tvs.*1) ∧
       (∀ tvs, map (fun w => as_promise (raw_result initial_state (VStr "p") w))
                 shared_entry = map fulfilled tvs →
          ∃ t, result = VFulfilled t (VArr tvs.*2))).
Proof.
  apply (dispatch_results true watched_store "shared" (VStr "p") shared_entry initial_state).
  - vm_compute. reflexivity.
  - unfold shared_entry. discriminate.
  - vm_compute. reflexivity.
  - unfold shared_entry. repeat constructor.
Defined.

(** ** Namespaces *)

Lemma append_cons (a : Ascii.ascii) (s t : string) : String a s +:+ t = String a (s +:+ t).
Proof. reflexivity. Qed.

Lemma append_nil_r (s : string) : s +:+ EmptyString = s.
Proof. induction s as [|a s IH]; [done|]. rewrite append_cons. by f_equal. Qed.

Lemma append_assoc (s t u : string) : (s +:+ t) +:+ u = s +:+ (t +:+ u).
Proof. induction s as [|a s IH]; [done|]. rewrite !append_cons. by f_equal. Qed.

Lemma get_from_app (m child : VuexModule) (path : list string) (key : string)
    (parent : VuexModule) :
  ModuleCollection.get_from m path = Ok (Some parent) →
  getChild parent key = Some child →
  ModuleCollection.get_from m (path ++ [key]) = Ok (Some child).
Proof.
  revert m. induction path as [|k path IH]; intros m; simpl.
  - intros [= ->] ->. done.
  - destruct (getChild m k) as [c|]; [by apply IH|].
    by destruct path.
Qed.

Lemma get_from_snoc_sub (m parent descendant : VuexModule) (path sub : list string) :
  ModuleCollection.get_from m path = Ok (Some parent) →
  ModuleCollection.get_from parent sub = Ok (Some descendant) →
  ModuleCollection.get_from m (path ++ sub) = Ok (Some descendant).
Proof.
  revert m. induction path as [|k path IH]; intros m; simpl.
  - by intros [= ->].
  - destruct (getChild m k) as [c|]; [by apply IH|].
    by destruct path.
Qed.

(** [getNamespace] computes the namespace of the documentation on every path
    that leads to a module. *)
Lemma getNamespace_from_spec (m target : VuexModule) (path : list string) (ns : string) :
  ModuleCollection.get_from m path = Ok (Some target) →
  ModuleCollection.getNamespace_from m path ns = Ok (ns +:+ namespace_of m path).
Proof.
  unfold namespace_of. revert m ns.
  induction path as [|k path IH]; intros m ns; simpl.
  - intros _. by rewrite append_nil_r.
  - destruct (getChild m k) as [c|]; [|by destruct path].
    intros Hget. rewrite (IH c _ Hget). simpl. by rewrite append_assoc.
Qed.

Lemma getNamespace_spec (mc : ModuleCollection.t) (target : VuexModule) (path : list string) :
  ModuleCollection.get mc path = Ok (Some target) →
  ModuleCollection.getNamespace mc path
  = Ok (namespace_of (ModuleCollection.root mc) path).
Proof.
  intros Hget. unfold ModuleCollection.getNamespace.
  by rewrite (getNamespace_from_spec _ _ _ _ Hget).
Qed.

(** ** Installation only adds to the routing tables *)

Lemma grows_refl (a : Store) : grows a a.
Proof. by repeat split. Qed.

Lemma grows_trans (a b c : Store) : grows a b → grows b c → grows a c.
Proof.
  intros (Hm & Ha & Hg & Hmod) (Hm' & Ha' & Hg' & Hmod').
  repeat split; [eauto..|congruence].
Qed.

(** A store that differs in none of the tables. *)
Lemma grows_same_tables (a b : Store) :
  _mutations b = _mutations a →
  _actions b = _actions a →
  _wrappedGetters b = _wrappedGetters a →
  _modules b = _modules a →
  grows a b.
Proof.
  intros Hm Ha Hg Hmod. unfold grows, has_mutation, has_action, has_getter.
  rewrite Hm, Ha, Hg. by repeat split.
Qed.

Lemma registerMutation_grows (store : Store) (type : string) (handler : MutationFn)
    (local : LocalContext) :
  grows store (registerMutation store type handler local) ∧
  has_mutation (registerMutation store type handler local) type
    (mkWrappedMutation handler local).
Proof.
  unfold registerMutation. split.
  - split; [|by repeat split].
    intros k w (entry & Hentry & Hin). unfold has_mutation. simpl.
    destruct (decide (type = k)) as [->|Hne].
    + rewrite lookup_insert_eq, Hentry. simpl.
      eexists. split; [done|]. apply elem_of_app. by left.
    + rewrite lookup_insert_ne by done. eauto.
  - unfold has_mutation. simpl. rewrite lookup_insert_eq.
    eexists. split; [done|]. apply elem_of_app. right. by apply list_elem_of_singleton.
Qed.

Lemma registerAction_grows (store : Store) (type : string) (handler : ActionFn)
    (local : LocalContext) :
  grows store (registerAction store type handler local) ∧
  has_action (registerAction store type handler local) type
    (mkWrappedAction handler local).
Proof.
  unfold registerAction. split.
  - split; [done|]. split; [|by repeat split].
    intros k w (entry & Hentry & Hin). unfold has_action. simpl.
    destruct (decide (type = k)) as [->|Hne].
    + rewrite lookup_insert_eq, Hentry. simpl.
      eexists. split; [done|]. apply elem_of_app. by left.
    + rewrite lookup_insert_ne by done. eauto.
  - unfold has_action. simpl. rewrite lookup_insert_eq.
    eexists. split; [done|]. apply elem_of_app. right. by apply list_elem_of_singleton.
Qed.

Lemma registerGetter_grows (DEV : bool) (store : Store) (type : string)
    (rawGetter : GetterFn) (local : LocalContext) :
  grows store (registerGetter DEV store type rawGetter local) ∧
  has_getter (registerGetter DEV store type rawGetter local) type.
Proof.
  unfold registerGetter, has_getter.
  destruct (_wrappedGetters store !! type) as [first|] eqn:Hfirst.
  - split.
    + destruct DEV; by apply grows_same_tables.
    + destruct DEV; simpl; rewrite Hfirst; eauto.
  - split.
    + split; [done|]. split; [done|]. split; [|done].
      intros k [w Hw]. unfold has_getter. simpl.
      destruct (decide (type = k)) as [->|Hne].
      * rewrite lookup_insert_eq. eauto.
      * rewrite lookup_insert_ne by done. eauto.
    + simpl. rewrite lookup_insert_eq. eauto.
Qed.

Lemma forEachMutation_grows (module : VuexModule) (N : string) (local : LocalContext)
    (store : Store) :
  let store' :=
    forEachMutation (fun mutation key store =>
                       registerMutation store (N +:+ key) mutation local) module store in
  grows store store' ∧
  ∀ K h, (K, h) ∈ mutations_of module →
         has_mutation store' (N +:+ K) (mkWrappedMutation h local).
Proof.
  unfold forEachMutation. generalize (mutations_of module) as decls.
  intros decls. revert store.
  induction decls as [|[K0 h0] decls IH]; intros store; simpl.
  - split; [apply grows_refl|]. intros K h Hin. by apply elem_of_nil in Hin.
  - destruct (registerMutation_grows store (N +:+ K0) h0 local) as [Hg Hhas].
    destruct (IH (registerMutation store (N +:+ K0) h0 local)) as [Hg' Hall].
    split; [by eapply grows_trans|].
    intros K h Hin. apply elem_of_cons in Hin as [[= -> ->]|Hin].
    + by apply Hg'.
    + by apply Hall.
Qed.

Lemma forEachAction_grows (module : VuexModule) (N : string) (local : LocalContext)
    (store : Store) :
  let store' :=
    forEachAction (fun action key store =>
                     registerAction store (if action_root action then key else N +:+ key)
                       (action_handler action) local) module store in
  grows store store' ∧
  ∀ K a, (K, a) ∈ actions_of module →
         has_action store' (if action_root a then K else N +:+ K)
           (mkWrappedAction (action_handler a) local).
Proof.
  unfold forEachAction. generalize (actions_of module) as decls.
  intros decls. revert store.
  induction decls as [|[K0 a0] decls IH]; intros store; simpl.
  - split; [apply grows_refl|]. intros K a Hin. by apply elem_of_nil in Hin.
  - set (type0 := if action_root a0 then K0 else N +:+ K0).
    destruct (registerAction_grows store type0 (action_handler a0) local) as [Hg Hhas].
    destruct (IH (registerAction store type0 (action_handler a0) local)) as [Hg' Hall].
    split; [by eapply grows_trans|].
    intros K a Hin. apply elem_of_cons in Hin as [[= -> ->]|Hin].
    + by apply Hg'.
    + by apply Hall.
Qed.

Lemma forEachGetter_grows (DEV : bool) (module : VuexModule) (N : string)
    (local : LocalContext) (store : Store) :
  let store' :=
    forEachGetter (fun getter key store =>
                     registerGetter DEV store (N +:+ key) getter local) module store in
  grows store store' ∧
  ∀ K g, (K, g) ∈ getters_of module → has_getter store' (N +:+ K).
Proof.
  unfold forEachGetter. generalize (getters_of module) as decls.
  intros decls. revert store.
  induction decls as [|[K0 g0] decls IH]; intros store; simpl.
  - split; [apply grows_refl|]. intros K g Hin. by apply elem_of_nil in Hin.
  - destruct (registerGetter_grows DEV store (N +:+ K0) g0 local) as [Hg Hhas].
    destruct (IH (registerGetter DEV store (N +:+ K0) g0 local)) as [Hg' Hall].
    split; [by eapply grows_trans|].
    intros K g Hin. apply elem_of_cons in Hin as [[= -> ->]|Hin].
    + by apply Hg'.
    + by eapply Hall.
Qed.

Lemma attach_state_grows (DEV : bool) (rootState rootState' : Val) (path : list string)
    (module : VuexModule) (store store' : Store) :
  attach_state DEV rootState path module store = Ok (rootState', store') →
  grows store store'.
Proof.
  unfold attach_state, _withCommit.
  destruct (getNestedState rootState (slice_init path)) as [parentState|]; simpl; [|done].
  destruct DEV; simpl.
  - destruct (isObject parentState); simpl; [|done].
    destruct (set_member parentState _ _); simpl; [|done].
    intros [= _ <-].
    destruct (match parentState with VObj ps => _ | _ => false end);
      by apply grows_same_tables.
  - destruct (set_member parentState _ _); simpl; [|done].
    intros [= _ <-]. by apply grows_same_tables.
Qed.

(** The body of [installModule], with the namespace step done. *)
Lemma installModule_unfold (DEV : bool) (store : Store) (rootState : Val)
    (path : list string) (module : VuexModule) (hot : bool) :
  installModule DEV store rootState path module hot =
  (namespace ← ModuleCollection.getNamespace (_modules store) path;
   let store :=
     if namespaced module
     then
       let store :=
         if bool_decide (is_Some (_modulesNamespaceMap store !! namespace)) && DEV
         then emit [ConsoleError ("[vuex] duplicate namespace " +:+ namespace
                      +:+ " for the namespaced module " +:+ String.concat "/" path)] store
         else store in
       with_modulesNamespaceMap (<[namespace := path]> (_modulesNamespaceMap store)) store
     else store in
   '(rootState, store) ←
     (if negb (match path with [] => true | _ => false end) && negb hot
      then attach_state DEV rootState path module store
      else Ok (rootState, store));
   let local := mkLocal namespace path in
   let store :=
     forEachMutation (fun mutation key store =>
                        registerMutation store (namespace +:+ key) mutation local)
       module store in
   let store :=
     forEachAction (fun action key store =>
                      registerAction store (if action_root action then key else namespace +:+ key)
                        (action_handler action) local)
       module store in
   let store :=
     forEachGetter (fun getter key store =>
                      registerGetter DEV store (namespace +:+ key) getter local)
       module store in
   forEachChild
     (fun child key rootState store =>
        installModule DEV store rootState (path ++ [key]) child hot)
     (_children module) rootState store).
Proof. destruct module; reflexivity. Qed.

(** Induction on the module tree. *)
Lemma VuexModule_tree_ind (P : VuexModule → Prop) :
  (∀ m, Forall (fun kc : string * VuexModule => P kc.2) (_children m) → P m) →
  ∀ m, P m.
Proof.
  intros Hstep. fix IH 1. intros [r children raw s].
  apply Hstep. simpl.
  induction children as [|[k c] children IHc]; constructor; [apply IH | exact IHc].
Qed.

Lemma namespace_step_grows (DEV : bool) (store : Store) (module : VuexModule)
    (namespace : string) (path : list string) :
  grows store
    (if namespaced module
     then
       let store :=
         if bool_decide (is_Some (_modulesNamespaceMap store !! namespace)) && DEV
         then emit [ConsoleError ("[vuex] duplicate namespace " +:+ namespace
                      +:+ " for the namespaced module " +:+ String.concat "/" path)] store
         else store in
       with_modulesNamespaceMap (<[namespace := path]> (_modulesNamespaceMap store)) store
     else store).
Proof.
  destruct (namespaced module); [|apply grows_refl].
  destruct (bool_decide _ && DEV); by apply grows_same_tables.
Qed.

Lemma forEachChild_grows (fn : VuexModule → string → Val → Store → Result (Val * Store))
    (children : list (string * VuexModule)) :
  Forall (fun kc : string * VuexModule =>
            ∀ rootState store rootState' store',
              fn kc.2 kc.1 rootState store = Ok (rootState', store') → grows store store')
    children →
  ∀ rootState store rootState' store',
    forEachChild fn children rootState store = Ok (rootState', store') →
    grows store store'.
Proof.
  induction 1 as [|[k c] children Hc _ IH]; intros rootState store rootState' store'; simpl.
  - intros [= _ <-]. apply grows_refl.
  - destruct (fn c k rootState store) as [[rs1 store1]|] eqn:Hfn; simpl; [|done].
    intros Hrest. eapply grows_trans; [by eapply Hc|by eapply IH].
Qed.

(** Whatever was in the routing tables before [installModule] is in them
    afterwards, and the module tree is the same. *)
Lemma installModule_grows (DEV : bool) (hot : bool) (module : VuexModule) :
  ∀ store rootState path rootState' store',
    installModule DEV store rootState path module hot = Ok (rootState', store') →
    grows store store'.
Proof.
  induction module as [module IH] using VuexModule_tree_ind.
  intros store rootState path rootState' store'.
  rewrite installModule_unfold.
  destruct (ModuleCollection.getNamespace (_modules store) path) as [N|]; simpl; [|done].
  pose proof (namespace_step_grows DEV store module N path) as H1.
  set (store1 := if namespaced module then _ else _) in *.
  destruct (if negb _ && negb hot then _ else _) as [[rs2 store2]|] eqn:Hattach;
    simpl; [|done].
  assert (H2 : grows store1 store2).
  { destruct (negb _ && negb hot).
    - by eapply attach_state_grows.
    - injection Hattach as _ <-. apply grows_refl. }
  set (local := mkLocal N path).
  destruct (forEachMutation_grows module N local store2) as [H3 _].
  set (store3 := forEachMutation _ module store2) in *.
  destruct (forEachAction_grows module N local store3) as [H4 _].
  set (store4 := forEachAction _ module store3) in *.
  destruct (forEachGetter_grows DEV module N local store4) as [H5 _].
  set (store5 := forEachGetter _ module store4) in *.
  intros Hchildren.
  assert (H6 : grows store5 store').
  { eapply forEachChild_grows; [|exact Hchildren].
    eapply Forall_impl; [exact IH|]. simpl.
    intros [k c] Hc rs st rs' st'. simpl. apply Hc. }
  eapply grows_trans; [exact H1|]. eapply grows_trans; [exact H2|].
  eapply grows_trans; [exact H3|]. eapply grows_trans; [exact H4|].
  eapply grows_trans; [exact H5|exact H6].
Qed.

(** ** What installModule registers *)

Lemma registered_grows (a b : Store) (root : VuexModule) (path : list string)
    (m : VuexModule) :
  grows a b → registered a root path m → registered b root path m.
Proof.
  intros (Hm & Ha & Hg & _) (Rm & Ra & Rg).
  split; [|split]; eauto.
Qed.

(** The declarations of every module below [module] are registered by the
    installation of [module]. *)
Lemma installModule_registered (DEV : bool) (hot : bool) (module : VuexModule) :
  ∀ store rootState path rootState' store',
    ModuleCollection.get (_modules store) path = Ok (Some module) →
    installModule DEV store rootState path module hot = Ok (rootState', store') →
    ∀ sub m',
      ModuleCollection.get_from module sub = Ok (Some m') →
      registered store' (ModuleCollection.root (_modules store)) (path ++ sub) m'.
Proof.
  induction module as [module IH] using VuexModule_tree_ind.
  intros store rootState path rootState' store' Hget.
  rewrite installModule_unfold.
  rewrite (getNamespace_spec _ _ _ Hget). simpl.
  set (root := ModuleCollection.root (_modules store)).
  set (N := namespace_of root path).
  pose proof (namespace_step_grows DEV store module N path) as H1.
  set (store1 := if namespaced module then _ else _) in *.
  destruct (if negb _ && negb hot then _ else _) as [[rs2 store2]|] eqn:Hattach;
    simpl; [|done].
  assert (H2 : grows store1 store2).
  { destruct (negb _ && negb hot).
    - by eapply attach_state_grows.
    - injection Hattach as _ <-. apply grows_refl. }
  set (local := mkLocal N path).
  destruct (forEachMutation_grows module N local store2) as [H3 Rm].
  set (store3 := forEachMutation _ module store2) in *.
  destruct (forEachAction_grows module N local store3) as [H4 Ra].
  set (store4 := forEachAction _ module store3) in *.
  destruct (forEachGetter_grows DEV module N local store4) as [H5 Rg].
  set (store5 := forEachGetter _ module store4) in *.
  assert (Hmod5 : _modules store5 = _modules store).
  { destruct H1 as (_ & _ & _ & E1), H2 as (_ & _ & _ & E2), H3 as (_ & _ & _ & E3),
      H4 as (_ & _ & _ & E4), H5 as (_ & _ & _ & E5). congruence. }
  intros Hchildren.
  assert (H6 : grows store5 store').
  { eapply forEachChild_grows; [|exact Hchildren].
    apply Forall_forall. intros [k c] _ rs st rs' st'. simpl.
    apply installModule_grows. }
  intros sub m' Hsub. destruct sub as [|k rest].
  - (* the module itself *)
    injection Hsub as <-. rewrite app_nil_r.
    apply (registered_grows store5); [exact H6|].
    split; [|split].
    + intros K h Hin. apply H5, H4. by apply Rm.
    + intros K a Hin. apply H5. by apply Ra.
    + exact Rg.
  - (* a module below the child [k] *)
    simpl in Hsub.
    destruct (getChild module k) as [c|] eqn:Hchild; [|by destruct rest].
    assert (Hgetc : ModuleCollection.get_from root (path ++ [k]) = Ok (Some c))
      by (by eapply get_from_app).
    replace (path ++ k :: rest) with ((path ++ [k]) ++ rest) by (by rewrite <- app_assoc).
    unfold getChild in Hchild.
    clear Hattach H1 H2 H3 H4 H5 H6 Rm Ra Rg.
    revert Hchild Hmod5 Hchildren.
    generalize store5 as st. generalize rs2 as rs.
    clear - IH Hgetc Hsub.
    induction IH as [|[k0 c0] children Hc0 _ IHchildren]; intros rs st; simpl; [done|].
    intros Hchild Hmod.
    destruct (installModule DEV st rs (path ++ [k0]) c0 hot) as [[rs1 st1]|] eqn:Hinst;
      simpl; [|done].
    intros Hrest.
    pose proof (installModule_grows _ _ _ _ _ _ _ _ Hinst) as Hg1.
    destruct (String.eqb k k0) eqn:Hk.
    + apply String.eqb_eq in Hk as ->. injection Hchild as ->.
      assert (Hgrest : grows st1 store').
      { eapply forEachChild_grows; [|exact Hrest].
        apply Forall_forall. intros [k' c'] _ rs' st' rs'' st''. simpl.
        apply installModule_grows. }
      apply (registered_grows st1); [exact Hgrest|].
      subst root. rewrite <- Hmod.
      eapply Hc0; [|exact Hinst|exact Hsub].
      unfold ModuleCollection.get. by rewrite Hmod.
    + apply (IHchildren rs1 st1); [done| |done].
      destruct Hg1 as (_ & _ & _ & E). congruence.
Qed.

Lemma alist_get_NoDup {A} (l : list (string * A)) (k : string) (v : A) :
  NoDup l.*1 → (k, v) ∈ l → alist_get k l = Some v.
Proof.
  induction l as [|[k0 v0] l IH]; simpl; intros Hnd Hin.
  - by apply elem_of_nil in Hin.
  - apply NoDup_cons in Hnd as [Hnotin Hnd].
    apply elem_of_cons in Hin as [[= -> ->]|Hin].
    + by rewrite String.eqb_refl.
    + destruct (String.eqb k k0) eqn:Hk; [|by apply IH].
      apply String.eqb_eq in Hk as ->.
      exfalso. apply Hnotin. apply list_elem_of_fmap. by exists (k0, v).
Qed.

(** A hot installation (as [resetStore] runs it) of a module of the tree
    returns normally. *)
Lemma installModule_hot_total (DEV : bool) (module : VuexModule) :
  unique_keys module = true →
  ∀ store rootState path,
    ModuleCollection.get (_modules store) path = Ok (Some module) →
    is_Ok (installModule DEV store rootState path module true) = true.
Proof.
  induction module as [module IH] using VuexModule_tree_ind.
  intros Huniq store rootState path Hget.
  rewrite installModule_unfold.
  rewrite (getNamespace_spec _ _ _ Hget). simpl.
  set (N := namespace_of _ path).
  pose proof (namespace_step_grows DEV store module N path) as H1.
  set (store1 := if namespaced module then _ else _) in *.
  rewrite andb_false_r. simpl.
  set (local := mkLocal N path).
  destruct (forEachMutation_grows module N local store1) as [H3 _].
  set (store3 := forEachMutation _ module store1) in *.
  destruct (forEachAction_grows module N local store3) as [H4 _].
  set (store4 := forEachAction _ module store3) in *.
  destruct (forEachGetter_grows DEV module N local store4) as [H5 _].
  set (store5 := forEachGetter _ module store4) in *.
  assert (Hmod5 : _modules store5 = _modules store).
  { destruct H1 as (_ & _ & _ & E1), H3 as (_ & _ & _ & E3),
      H4 as (_ & _ & _ & E4), H5 as (_ & _ & _ & E5). congruence. }
  destruct module as [r children raw s]. simpl in *.
  apply andb_true_iff in Huniq as [Hnd Hall].
  apply bool_decide_eq_true in Hnd.
  assert (Hfirst : ∀ k c, (k, c) ∈ children →
            ModuleCollection.get (_modules store) (path ++ [k]) = Ok (Some c)).
  { intros k c Hin. eapply get_from_app; [exact Hget|].
    unfold getChild. simpl. by apply alist_get_NoDup. }
  clear H1 H3 H4 H5 Hnd Hget.
  revert Hall Hfirst Hmod5. generalize store5 as st. generalize rootState as rs.
  clear - IH.
  induction IH as [|[k0 c0] children Hc0 _ IHchildren]; intros rs st; simpl; [done|].
  intros Hall Hfirst Hmod.
  apply andb_true_iff in Hall as [Hu0 Hall].
  assert (Hok : is_Ok (installModule DEV st rs (path ++ [k0]) c0 true) = true).
  { apply Hc0; [exact Hu0|]. unfold ModuleCollection.get. rewrite Hmod.
    apply Hfirst. by left. }
  destruct (installModule DEV st rs (path ++ [k0]) c0 true) as [[rs1 st1]|] eqn:Hinst;
    [|done].
  simpl. apply IHchildren; [exact Hall| |].
  - intros k c Hin. apply Hfirst. by right.
  - pose proof (installModule_grows _ _ _ _ _ _ _ _ Hinst) as (_ & _ & _ & E). congruence.
Qed.

(** C2. Let [module] be the module at [path] of the store's module tree.
    Whenever [installModule] on it returns (and a hot installation of a
    module tree always does), then for every module [m'] at a path
    [path ++ sub] at or below it, with [N] the concatenation of [key + '/']
    over the modules along [path ++ sub] that are flagged namespaced (which
    is what [getNamespace] returns): every declared mutation key [K] is in
    the mutation table under [N + K], every declared action key [K] is in the
    action table under [N + K], or under the bare [K] when the action is
    declared with [root: true], each with the handler bound to the module's
    local context, and every declared getter key [K] is in the getter table
    under [N + K]. *)
Theorem installModule_namespaced_keys (DEV hot : bool) (store : Store) (rootState : Val)
    (path : list string) (module : VuexModule) :
  ModuleCollection.get (_modules store) path = Ok (Some module) →
  (hot = true → unique_keys module = true →
   is_Ok (installModule DEV store rootState path module hot) = true) ∧
  ∀ rootState' store',
    installModule DEV store rootState path module hot = Ok (rootState', store') →
    ∀ sub m',
      ModuleCollection.get_from module sub = Ok (Some m') →
      let N := namespace_of (ModuleCollection.root (_modules store)) (path ++ sub) in
      let local := mkLocal N (path ++ sub) in
      ModuleCollection.getNamespace (_modules store) (path ++ sub) = Ok N ∧
      (∀ K h, (K, h) ∈ mutations_of m' →
         has_mutation store' (N +:+ K) (mkWrappedMutation h local)) ∧
      (∀ K a, (K, a) ∈ actions_of m' →
         has_action store' (if action_root a then K else N +:+ K)
           (mkWrappedAction (action_handler a) local)) ∧
      (∀ K g, (K, g) ∈ getters_of m' → has_getter store' (N +:+ K)).
Proof.
  intros Hget. split.
  - intros -> Huniq. by apply installModule_hot_total.
  - intros rootState' store' Hinst sub m' Hsub. simpl.
    split.
    + apply (getNamespace_spec _ m'). by eapply get_from_snoc_sub.
    + by eapply (installModule_registered DEV hot module).
Qed.

Lemma installModule_namespaced_keys_witness :
  ∃ store',
    installModule true unwired_store initial_state []
      (ModuleCollection.root (_modules dev_store)) true = Ok (initial_state, store') ∧
    ModuleCollection.getNamespace (_modules unwired_store) ["cart"] = Ok "cart/" ∧
    has_mutation store' "cart/add"
      (mkWrappedMutation push_item (mkLocal "cart/" ["cart"])) ∧
    has_action store' "cart/checkout"
      (mkWrappedAction later (mkLocal "cart/" ["cart"])) ∧
    has_action store' "refresh"
      (mkWrappedAction answer (mkLocal "cart/" ["cart"])) ∧
    has_getter store' "cart/count".
Proof.
  assert (Hget : ModuleCollection.get (_modules unwired_store) []
                 = Ok (Some (ModuleCollection.root (_modules dev_store))))
    by (vm_compute; reflexivity).
  destruct (installModule_namespaced_keys true true unwired_store initial_state []
              (ModuleCollection.root (_modules dev_store)) Hget) as [_ Hkeys].
  exists reinstalled_store.
  assert (Hinst : installModule true unwired_store initial_state []
                    (ModuleCollection.root (_modules dev_store)) true
                  = Ok (initial_state, reinstalled_store))
    by (vm_compute; reflexivity).
  assert (Hsub : ModuleCollection.get_from (ModuleCollection.root (_modules dev_store))
                   ["cart"] = Ok (Some cart_module))
    by (vm_compute; reflexivity).
  destruct (Hkeys _ _ Hinst ["cart"] cart_module Hsub) as (Hns & Hm & Ha & Hg).
  split; [exact Hinst|].
  split; [exact Hns|].
  split; [apply (Hm "add" push_item); left|].
  split; [apply (Ha "checkout" (ActionPlain later)); left|].
  split; [apply (Ha "refresh" (ActionObject answer true)); right; left|].
  apply (Hg "count" count_items); left.
Defined.

(** * Further properties of the store code *)

(** ** genericSubscribe and the functions it returns *)

(** X1. [subscribe] called twice with the same function, and
    [subscribeAction] called twice with the same hooks object, leave the
    subscriber list after the second call as it was after the first,
    whatever the options of the two calls. *)
Theorem subscribe_same_reference_once (store : Store) (fn : nat) (hooks : ActionSub)
    (options options' : Val) :
  _subscribers (subscribe fn options' (subscribe fn options store).2).2
  = _subscribers (subscribe fn options store).2 ∧
  _actionSubscribers
    (subscribeAction (ArgHooks hooks) options'
       (subscribeAction (ArgHooks hooks) options store).2).2
  = _actionSubscribers (subscribeAction (ArgHooks hooks) options store).2.
Proof.
  split; simpl; apply genericSubscribe_twice.
  - apply Nat.eqb_refl.
  - unfold ActionSub_same. destruct (sub_ref hooks); simpl; apply Nat.eqb_refl.
Qed.

Lemma indexOf_Some_elem (fn : nat) (subs : list nat) (i : nat) :
  indexOf Nat.eqb fn subs = Some i → fn ∈ subs.
Proof.
  intros Hi. apply indexOf_lookup in Hi. by eapply list_elem_of_lookup_2.
Qed.

Lemma indexOf_snoc_fresh (fn : nat) (subs : list nat) :
  fn ∉ subs → indexOf Nat.eqb fn (subs ++ [fn]) = Some (length subs).
Proof.
  induction subs as [|x subs IH]; simpl; intros Hnot.
  - by rewrite Nat.eqb_refl.
  - apply not_elem_of_cons in Hnot as [Hne Hnot].
    destruct (Nat.eqb x fn) eqn:Hx.
    + apply Nat.eqb_eq in Hx. congruence.
    + by rewrite IH.
Qed.

Lemma delete_snoc (subs : list nat) (fn : nat) : delete (length subs) (subs ++ [fn]) = subs.
Proof. induction subs as [|x subs IH]; simpl; [done|]. by f_equal. Qed.

Lemma unsubscribe_removes (fn : nat) (subs : list nat) :
  NoDup subs → fn ∉ unsubscribe Nat.eqb fn subs.
Proof.
  intros Hnodup. unfold unsubscribe.
  destruct (indexOf Nat.eqb fn subs) as [i|] eqn:Hi.
  - apply indexOf_lookup in Hi.
    intros Hin. apply list_elem_of_lookup in Hin as [j Hj].
    destruct (decide (j < i)) as [Hlt|Hge].
    + rewrite list_lookup_delete_lt in Hj by done.
      pose proof (NoDup_lookup _ _ _ _ Hnodup Hi Hj). lia.
    + rewrite list_lookup_delete_ge in Hj by lia.
      pose proof (NoDup_lookup _ _ _ _ Hnodup Hi Hj). lia.
  - intros Hin. apply list_elem_of_lookup in Hin as [j Hj].
    clear Hnodup. revert j Hj Hi.
    induction subs as [|x subs IH]; intros j Hj Hi; [done|].
    simpl in Hi. destruct (Nat.eqb x fn) eqn:Hx; [done|].
    destruct j as [|j]; simpl in Hj.
    + injection Hj as ->. by rewrite Nat.eqb_refl in Hx.
    + apply (IH j Hj). by destruct (indexOf Nat.eqb fn subs).
Qed.

(** X2. Subscribing a function that is not yet a subscriber and then
    calling the returned function gives back the subscriber list of before,
    with or without [prepend].  When the function already was a subscriber,
    the second [subscribe] adds nothing, and the function it returns removes
    the earlier subscription. *)
Theorem subscribe_then_unsubscribe (store : Store) (fn : nat) (options : Val) :
  NoDup (_subscribers store) →
  let '(off, store1) := subscribe fn options store in
  (fn ∉ _subscribers store →
   _subscribers (call_unsubscribe off store1) = _subscribers store) ∧
  (fn ∈ _subscribers store →
   _subscribers store1 = _subscribers store ∧
   fn ∉ _subscribers (call_unsubscribe off store1)).
Proof.
  intros Hnodup. simpl. split.
  - intros Hnot. unfold genericSubscribe.
    rewrite (indexOf_None _ _ Hnot).
    destruct (truthy options && truthy (prop options "prepend")).
    + unfold unsubscribe. simpl. by rewrite Nat.eqb_refl.
    + unfold unsubscribe. rewrite (indexOf_snoc_fresh _ _ Hnot).
      apply delete_snoc.
  - intros Hin. unfold genericSubscribe.
    destruct (indexOf Nat.eqb fn (_subscribers store)) as [i|] eqn:Hi.
    + split; [done|]. by apply unsubscribe_removes.
    + exfalso. clear Hnodup. revert Hi.
      induction (_subscribers store) as [|x subs IH]; [by apply elem_of_nil in Hin|].
      simpl. apply elem_of_cons in Hin as [->|Hin].
      * by rewrite Nat.eqb_refl.
      * destruct (Nat.eqb x fn); [done|].
        destruct (indexOf Nat.eqb fn subs); [done|]. intros _. by apply IH.
Qed.

Lemma subscribe_then_unsubscribe_witness :
  let '(off, store1) := subscribe 22 (VObj [("prepend", VBool true)]) watched_store in
  (22 ∉ _subscribers watched_store →
   _subscribers (call_unsubscribe off store1) = _subscribers watched_store) ∧
  (22 ∈ _subscribers watched_store →
   _subscribers store1 = _subscribers watched_store ∧
   22 ∉ _subscribers (call_unsubscribe off store1)).
Proof.
  apply (subscribe_then_unsubscribe watched_store 22 (VObj [("prepend", VBool true)])).
  apply (bool_decide_unpack _). vm_compute. exact I.
Defined.

(** X3. The subscriber list stays free of repetitions: [subscribe] and the
    functions it returns keep that invariant, and on such a list a second
    call of a returned function changes nothing. *)
Theorem subscribers_stay_distinct (store : Store) (fn : nat) (options : Val) :
  NoDup (_subscribers store) →
  NoDup (_subscribers (subscribe fn options store).2) ∧
  NoDup (_subscribers (call_unsubscribe (UnsubscribeMutation fn) store)) ∧
  _subscribers (call_unsubscribe (UnsubscribeMutation fn)
                  (call_unsubscribe (UnsubscribeMutation fn) store))
  = _subscribers (call_unsubscribe (UnsubscribeMutation fn) store).
Proof.
  intros Hnodup. simpl. split; [|split].
  - unfold genericSubscribe.
    destruct (indexOf Nat.eqb fn (_subscribers store)) as [i|] eqn:Hi; [done|].
    assert (Hnot : fn ∉ _subscribers store).
    { intros Hin. clear Hnodup. revert Hi.
      induction (_subscribers store) as [|x subs IH]; [by apply elem_of_nil in Hin|].
      simpl. apply elem_of_cons in Hin as [->|Hin].
      - by rewrite Nat.eqb_refl.
      - destruct (Nat.eqb x fn); [done|].
        destruct (indexOf Nat.eqb fn subs); [done|]. intros _. by apply IH. }
    destruct (truthy options && truthy (prop options "prepend")).
    + by apply NoDup_cons.
    + apply NoDup_app. split; [done|]. split; [|apply NoDup_singleton].
      intros x Hx Hx'. apply list_elem_of_singleton in Hx'. by subst.
  - unfold unsubscribe.
    destruct (indexOf Nat.eqb fn (_subscribers store)) as [i|]; [|done].
    eapply sublist_NoDup; [exact Hnodup|apply sublist_delete].
  - unfold unsubscribe at 1.
    by rewrite (indexOf_None _ _ (unsubscribe_removes fn _ Hnodup)).
Qed.

Lemma subscribers_stay_distinct_witness :
  NoDup (_subscribers (subscribe 20 VUndef watched_store).2) ∧
  NoDup (_subscribers (call_unsubscribe (UnsubscribeMutation 20) watched_store)) ∧
  _subscribers (call_unsubscribe (UnsubscribeMutation 20)
                  (call_unsubscribe (UnsubscribeMutation 20) watched_store))
  = _subscribers (call_unsubscribe (UnsubscribeMutation 20) watched_store).
Proof.
  apply (subscribers_stay_distinct watched_store 20 VUndef).
  apply (bool_decide_unpack _). vm_compute. exact I.
Defined.

(** ** unifyObjectStyle *)

(** X4. Object-style calls: [commit({ type: T, ... }, options)] is
    [commit(T, theObject, options)] and [dispatch({ type: T, ... })] is
    [dispatch(T, theObject)], for a non-empty string [T]: the whole object is
    the payload, and the second argument moves to the options. *)
Theorem object_style_call (DEV : bool) (store : Store) (ps : list (string * Val))
    (T : string) (second third : Val) :
  alist_get "type" ps = Some (VStr T) →
  T ≠ EmptyString →
  commit DEV (VObj ps) second third store = commit DEV (VStr T) (VObj ps) second store ∧
  dispatch DEV (VObj ps) second store = dispatch DEV (VStr T) (VObj ps) store.
Proof.
  intros Htype Hne.
  assert (Hunify : ∀ options,
            unifyObjectStyle DEV (VObj ps) second options
            = Ok (VStr T, VObj ps, second)).
  { intros options. unfold unifyObjectStyle. simpl. rewrite Htype. simpl.
    destruct (String.eqb T EmptyString) eqn:HT.
    - by apply String.eqb_eq in HT.
    - simpl. by rewrite andb_false_r. }
  split.
  - unfold commit. by rewrite Hunify, unifyObjectStyle_string.
  - unfold dispatch. by rewrite Hunify, unifyObjectStyle_string.
Qed.

Lemma object_style_call_witness :
  commit true (VObj [("type", VStr "bump"); ("by", VNum 2)]) VUndef VUndef watched_store
  = commit true (VStr "bump") (VObj [("type", VStr "bump"); ("by", VNum 2)]) VUndef
      watched_store ∧
  dispatch true (VObj [("type", VStr "bump"); ("by", VNum 2)]) VUndef watched_store
  = dispatch true (VStr "bump") (VObj [("type", VStr "bump"); ("by", VNum 2)])
      watched_store.
Proof.
  apply (object_style_call true watched_store [("type", VStr "bump"); ("by", VNum 2)]
           "bump" VUndef VUndef).
  - reflexivity.
  - discriminate.
Defined.



(** ** ModuleCollection: register, unregister, get, isRegistered *)

Lemma alist_get_set_eq {A} (k : string) (v : A) (l : list (string * A)) :
  alist_get k (alist_set k v l) = Some v.
Proof.
  induction l as [|[k' v'] l IH]; simpl.
  - by rewrite String.eqb_refl.
  - destruct (String.eqb k k') eqn:Hk; simpl; by rewrite ?String.eqb_refl, ?Hk.
Qed.

Lemma alist_get_set_ne {A} (k k' : string) (v : A) (l : list (string * A)) :
  k' ≠ k → alist_get k' (alist_set k v l) = alist_get k' l.
Proof.
  intros Hne. induction l as [|[k0 v0] l IH]; simpl.
  - destruct (String.eqb k' k) eqn:Hk; [|done]. by apply String.eqb_eq in Hk.
  - destruct (String.eqb k k0) eqn:Hk; simpl.
    + apply String.eqb_eq in Hk as <-.
      destruct (String.eqb k' k) eqn:Hk'; [|done]. by apply String.eqb_eq in Hk'.
    + by rewrite IH.
Qed.

Lemma alist_set_set {A} (k : string) (v v' : A) (l : list (string * A)) :
  alist_set k v' (alist_set k v l) = alist_set k v' l.
Proof.
  induction l as [|[k0 v0] l IH]; simpl.
  - by rewrite String.eqb_refl.
  - destruct (String.eqb k k0) eqn:Hk; simpl; rewrite ?String.eqb_refl, ?Hk; [done|].
    by rewrite IH.
Qed.

Lemma alist_set_same {A} (k : string) (v : A) (l : list (string * A)) :
  alist_get k l = Some v → alist_set k v l = l.
Proof.
  induction l as [|[k0 v0] l IH]; simpl; [done|].
  destruct (String.eqb k k0) eqn:Hk.
  - apply String.eqb_eq in Hk as ->. by intros [= ->].
  - intros Hget. by rewrite IH.
Qed.

Lemma alist_del_set_fresh {A} (k : string) (v : A) (l : list (string * A)) :
  alist_get k l = None → alist_del k (alist_set k v l) = l.
Proof.
  induction l as [|[k0 v0] l IH]; simpl.
  - by rewrite String.eqb_refl.
  - destruct (String.eqb k k0) eqn:Hk; [done|]. simpl. rewrite Hk.
    intros Hget. by rewrite IH.
Qed.

Lemma alist_get_del_ne {A} (k k' : string) (l : list (string * A)) :
  k' ≠ k → alist_get k' (alist_del k l) = alist_get k' l.
Proof.
  intros Hne. induction l as [|[k0 v0] l IH]; simpl; [done|].
  destruct (String.eqb k k0) eqn:Hk; simpl.
  - apply String.eqb_eq in Hk as <-.
    destruct (String.eqb k' k) eqn:Hk'; [|done]. by apply String.eqb_eq in Hk'.
  - by rewrite IH.
Qed.

Lemma alist_get_None_keys {A} (k : string) (l : list (string * A)) :
  k ∉ l.*1 → alist_get k l = None.
Proof.
  induction l as [|[k0 v0] l IH]; simpl; [done|].
  intros Hnot. apply not_elem_of_cons in Hnot as [Hne Hnot].
  destruct (String.eqb k k0) eqn:Hk; [|by apply IH].
  by apply String.eqb_eq in Hk.
Qed.

Lemma alist_get_del_eq {A} (k : string) (l : list (string * A)) :
  NoDup l.*1 → alist_get k (alist_del k l) = None.
Proof.
  induction l as [|[k0 v0] l IH]; simpl; [done|].
  intros Hnd. apply NoDup_cons in Hnd as [Hnot Hnd].
  destruct (String.eqb k k0) eqn:Hk; simpl.
  - apply String.eqb_eq in Hk as ->. by apply alist_get_None_keys.
  - rewrite Hk. by apply IH.
Qed.

Lemma getChild_addChild (key : string) (child m : VuexModule) :
  getChild (addChild key child m) key = Some child.
Proof. unfold getChild, addChild. simpl. apply alist_get_set_eq. Qed.

Lemma getChild_addChild_ne (key key' : string) (child m : VuexModule) :
  key' ≠ key → getChild (addChild key child m) key' = getChild m key'.
Proof. intros Hne. unfold getChild, addChild. simpl. by apply alist_get_set_ne. Qed.

Lemma addChild_addChild (key : string) (c c' m : VuexModule) :
  addChild key c' (addChild key c m) = addChild key c' m.
Proof. unfold addChild. simpl. by rewrite alist_set_set. Qed.

Lemma addChild_same (key : string) (c m : VuexModule) :
  getChild m key = Some c → addChild key c m = m.
Proof.
  unfold getChild, addChild. intros Hget. rewrite (alist_set_same _ _ _ Hget).
  by destruct m.
Qed.

(** [modify_at] reaches the module that [get] finds. *)
Lemma get_from_modify_at (r m : VuexModule) (q : list string) (f : VuexModule → VuexModule) :
  ModuleCollection.get_from r q = Ok (Some m) →
  ModuleCollection.get_from (ModuleCollection.modify_at r q f) q = Ok (Some (f m)).
Proof.
  revert r. induction q as [|k q IH]; intros r; simpl.
  - by intros [= ->].
  - destruct (getChild r k) as [c|] eqn:Hc; [|by destruct q].
    intros Hget. rewrite getChild_addChild. by apply IH.
Qed.

Lemma modify_at_twice (r m : VuexModule) (q : list string) (f g : VuexModule → VuexModule) :
  ModuleCollection.get_from r q = Ok (Some m) →
  ModuleCollection.modify_at (ModuleCollection.modify_at r q f) q g
  = ModuleCollection.modify_at r q (fun x => g (f x)).
Proof.
  revert r. induction q as [|k q IH]; intros r; simpl; [done|].
  destruct (getChild r k) as [c|] eqn:Hc; [|by destruct q].
  intros Hget. rewrite getChild_addChild, addChild_addChild. by rewrite IH.
Qed.

Lemma modify_at_ext (r m : VuexModule) (q : list string) (f g : VuexModule → VuexModule) :
  ModuleCollection.get_from r q = Ok (Some m) →
  f m = g m →
  ModuleCollection.modify_at r q f = ModuleCollection.modify_at r q g.
Proof.
  revert r. induction q as [|k q IH]; intros r; simpl.
  - by intros [= ->].
  - destruct (getChild r k) as [c|] eqn:Hc; [|by destruct q].
    intros Hget Hfg. by rewrite (IH c Hget Hfg).
Qed.

Lemma modify_at_id (r m : VuexModule) (q : list string) (f : VuexModule → VuexModule) :
  ModuleCollection.get_from r q = Ok (Some m) →
  f m = m →
  ModuleCollection.modify_at r q f = r.
Proof.
  revert r. induction q as [|k q IH]; intros r; simpl.
  - by intros [= ->].
  - destruct (getChild r k) as [c|] eqn:Hc; [|by destruct q].
    intros Hget Hf. rewrite (IH c Hget Hf). by apply addChild_same.
Qed.

Lemma modify_at_app (r m : VuexModule) (p q : list string) (f : VuexModule → VuexModule) :
  ModuleCollection.get_from r p = Ok (Some m) →
  ModuleCollection.modify_at r (p ++ q) f
  = ModuleCollection.modify_at r p (fun x => ModuleCollection.modify_at x q f).
Proof.
  revert r. induction p as [|k p IH]; intros r; simpl; [done|].
  destruct (getChild r k) as [c|] eqn:Hc; [|by destruct p].
  intros Hget. by rewrite (IH c Hget).
Qed.

(** A module elsewhere in the tree is where it was after a change below
    [p ++ [key]]. *)
Lemma get_from_modify_child_ne (r parent : VuexModule) (p : list string)
    (key key' : string) (f : VuexModule → VuexModule) :
  ModuleCollection.get_from r p = Ok (Some parent) →
  key' ≠ key →
  (∀ m, getChild (f m) key' = getChild m key') →
  ModuleCollection.get_from (ModuleCollection.modify_at r p f) (p ++ [key'])
  = ModuleCollection.get_from r (p ++ [key']).
Proof.
  intros Hget Hne Hf.
  revert r Hget. induction p as [|k p IH]; intros r; simpl.
  - intros [= ->]. by rewrite Hf.
  - destruct (getChild r k) as [c|] eqn:Hc; [|by destruct p].
    intros Hget. rewrite getChild_addChild. by apply IH.
Qed.

Lemma slice_init_snoc (p : list string) (key : string) : slice_init (p ++ [key]) = p.
Proof. apply removelast_last. Qed.

Lemma last_key_snoc (p : list string) (key : string) : last_key (p ++ [key]) = Some key.
Proof. apply last_snoc. Qed.

(** Induction on a configuration and its nested configurations. *)
Lemma RawModule_tree_ind (P : RawModule → Prop) :
  (∀ raw, Forall (fun kr : string * RawModule => P kr.2) (raw_modules raw) → P raw) →
  ∀ raw, P raw.
Proof.
  intros Hstep. fix IH 1. intros [ns st ms acts gs mods].
  apply Hstep. simpl.
  induction mods as [|[k r] mods IHm]; constructor; [apply IH | exact IHm].
Qed.

Lemma register_at_unfold (cur : option VuexModule) (path : list string)
    (rawModule : RawModule) (runtime : bool) :
  ModuleCollection.register_at cur path rawModule runtime =
  (root1 ←
     match path with
     | [] => Ok (newModule rawModule runtime)
     | _ =>
         match cur with
         | None => Throw (TypeError "Cannot read properties of undefined (reading 'getChild')")
         | Some r =>
             parent ← ModuleCollection.get_from r (slice_init path);
             match parent, last_key path with
             | Some _, Some key =>
                 Ok (ModuleCollection.modify_at r (slice_init path)
                       (addChild key (newModule rawModule runtime)))
             | _, _ => Throw (TypeError "Cannot read properties of undefined (reading 'addChild')")
             end
         end
     end;
   (fix each (mods : list (string * RawModule)) (r : VuexModule) : Result VuexModule :=
      match mods with
      | [] => Ok r
      | (key, rawChildModule) :: rest =>
          r' ← ModuleCollection.register_at (Some r) (path ++ [key]) rawChildModule runtime;
          each rest r'
      end) (raw_modules rawModule) root1).
Proof. destruct rawModule; reflexivity. Qed.

Lemma module_tree_of_unfold (rawModule : RawModule) (runtime : bool) :
  module_tree_of rawModule runtime =
  fold_left
    (fun (m : VuexModule) (kr : string * RawModule) =>
       addChild kr.1 (module_tree_of kr.2 runtime) m)
    (raw_modules rawModule) (newModule rawModule runtime).
Proof. destruct rawModule; reflexivity. Qed.

Lemma register_at_snoc (cur : option VuexModule) (p : list string) (key : string)
    (rawModule : RawModule) (runtime : bool) :
  ModuleCollection.register_at cur (p ++ [key]) rawModule runtime =
  (root1 ←
     match cur with
     | None => Throw (TypeError "Cannot read properties of undefined (reading 'getChild')")
     | Some r =>
         parent ← ModuleCollection.get_from r p;
         match parent with
         | Some _ =>
             Ok (ModuleCollection.modify_at r p (addChild key (newModule rawModule runtime)))
         | None => Throw (TypeError "Cannot read properties of undefined (reading 'addChild')")
         end
     end;
   (fix each (mods : list (string * RawModule)) (r : VuexModule) : Result VuexModule :=
      match mods with
      | [] => Ok r
      | (key', rawChildModule) :: rest =>
          r' ← ModuleCollection.register_at (Some r) ((p ++ [key]) ++ [key'])
                 rawChildModule runtime;
          each rest r'
      end) (raw_modules rawModule) root1).
Proof.
  rewrite register_at_unfold, slice_init_snoc, last_key_snoc.
  destruct (p ++ [key]) as [|k0 rest] eqn:E; [by destruct p|].
  reflexivity.
Qed.

Lemma modify_at_under (r parent c : VuexModule) (p : list string) (key : string)
    (g : VuexModule → VuexModule) :
  ModuleCollection.get_from r p = Ok (Some parent) →
  ModuleCollection.modify_at (ModuleCollection.modify_at r p (addChild key c)) (p ++ [key]) g
  = ModuleCollection.modify_at r p (addChild key (g c)).
Proof.
  intros Hget.
  rewrite (modify_at_app _ (addChild key c parent)) by (by apply get_from_modify_at).
  rewrite (modify_at_twice _ parent) by done.
  apply (modify_at_ext _ parent); [done|].
  simpl. by rewrite getChild_addChild, addChild_addChild.
Qed.

(** [register] at a path below an existing parent puts the whole tree of the
    configuration under the last key of the path. *)
Lemma register_at_builds (runtime : bool) (rawModule : RawModule) :
  ∀ r p key parent,
    ModuleCollection.get_from r p = Ok (Some parent) →
    ModuleCollection.register_at (Some r) (p ++ [key]) rawModule runtime
    = Ok (ModuleCollection.modify_at r p (addChild key (module_tree_of rawModule runtime))).
Proof.
  induction rawModule as [raw IH] using RawModule_tree_ind.
  intros r p key parent Hget.
  rewrite register_at_snoc, Hget, module_tree_of_unfold. simpl.
  generalize (newModule raw runtime) as m0.
  induction IH as [|[k rawc] mods Hc _ IHmods]; intros m0; simpl; [done|].
  assert (Hget0 : ModuleCollection.get_from
                    (ModuleCollection.modify_at r p (addChild key m0)) (p ++ [key])
                  = Ok (Some m0)).
  { eapply get_from_app; [by apply get_from_modify_at|]. apply getChild_addChild. }
  rewrite (Hc _ _ _ _ Hget0). simpl.
  rewrite (modify_at_under _ parent) by done.
  apply IHmods.
Qed.

(** [register([], raw)] makes the tree of the configuration the root. *)
Lemma register_at_root (runtime : bool) (rawModule : RawModule) (cur : option VuexModule) :
  ModuleCollection.register_at cur [] rawModule runtime
  = Ok (module_tree_of rawModule runtime).
Proof.
  rewrite register_at_unfold, module_tree_of_unfold. simpl.
  generalize (newModule rawModule runtime) as m0.
  induction (raw_modules rawModule) as [|[k rawc] mods IH]; intros m0; simpl; [done|].
  pose proof (register_at_builds runtime rawc m0 [] k m0 eq_refl) as Hk.
  simpl in Hk. rewrite Hk. simpl.
  apply IH.
Qed.

Lemma module_tree_of_runtime (rawModule : RawModule) (b : bool) :
  runtime (module_tree_of rawModule b) = b ∧
  _rawModule (module_tree_of rawModule b) = rawModule ∧
  VModule.state (module_tree_of rawModule b) = raw_state rawModule.
Proof.
  rewrite module_tree_of_unfold.
  assert (H : ∀ m0 : VuexModule,
            let m := fold_left
                       (fun (m : VuexModule) (kr : string * RawModule) =>
                          addChild kr.1 (module_tree_of kr.2 b) m)
                       (raw_modules rawModule) m0 in
            runtime m = runtime m0 ∧ _rawModule m = _rawModule m0 ∧
            VModule.state m = VModule.state m0).
  { induction (raw_modules rawModule) as [|[k rawc] mods IH]; intros m0; simpl; [done|].
    destruct (IH (addChild k (module_tree_of rawc b) m0)) as (? & ? & ?). done. }
  apply (H (newModule rawModule b)).
Qed.

(** X6. Registering a configuration at [p ++ [key]], where [p] leads to a
    module, succeeds; afterwards [get] finds there the module tree of the
    configuration (its own module, carrying the given runtime flag, with the
    nested configurations registered below it), [isRegistered] answers true,
    and the other children of the parent are the ones of before. *)
Theorem register_then_lookup (mc : ModuleCollection.t) (p : list string) (key : string)
    (parent : VuexModule) (rawModule : RawModule) (rt : bool) :
  ModuleCollection.get mc p = Ok (Some parent) →
  ∃ mc',
    ModuleCollection.register mc (p ++ [key]) rawModule rt = Ok mc' ∧
    ModuleCollection.get mc' (p ++ [key]) = Ok (Some (module_tree_of rawModule rt)) ∧
    runtime (module_tree_of rawModule rt) = rt ∧
    _rawModule (module_tree_of rawModule rt) = rawModule ∧
    ModuleCollection.isRegistered mc' (p ++ [key]) = Ok true ∧
    (∀ key', key' ≠ key →
       ModuleCollection.get mc' (p ++ [key']) = ModuleCollection.get mc (p ++ [key'])).
Proof.
  intros Hget. unfold ModuleCollection.get in Hget.
  eexists. split.
  { unfold ModuleCollection.register.
    by rewrite (register_at_builds rt rawModule _ _ _ _ Hget). }
  assert (Hfound : ModuleCollection.get_from
                     (ModuleCollection.modify_at (ModuleCollection.root mc) p
                        (addChild key (module_tree_of rawModule rt))) (p ++ [key])
                   = Ok (Some (module_tree_of rawModule rt))).
  { eapply get_from_app; [by apply get_from_modify_at|]. apply getChild_addChild. }
  split; [exact Hfound|].
  destruct (module_tree_of_runtime rawModule rt) as (Hrt & Hraw & _).
  split; [exact Hrt|]. split; [exact Hraw|]. split.
  - unfold ModuleCollection.isRegistered, ModuleCollection.get. simpl.
    rewrite slice_init_snoc, last_key_snoc.
    rewrite (get_from_modify_at _ parent) by done. simpl.
    unfold hasChild, alist_has.
    pose proof (getChild_addChild key (module_tree_of rawModule rt) parent) as Hc.
    unfold getChild in Hc. by rewrite Hc.
  - intros key' Hne. unfold ModuleCollection.get. simpl.
    apply (get_from_modify_child_ne _ parent p key key'); [done|done|].
    intros m. by apply getChild_addChild_ne.
Qed.

Lemma register_then_lookup_witness :
  ∃ mc',
    ModuleCollection.register (_modules dev_store) ([] ++ ["extra"]) cart_config true
    = Ok mc' ∧
    ModuleCollection.get mc' ([] ++ ["extra"]) = Ok (Some (module_tree_of cart_config true)) ∧
    runtime (module_tree_of cart_config true) = true ∧
    _rawModule (module_tree_of cart_config true) = cart_config ∧
    ModuleCollection.isRegistered mc' ([] ++ ["extra"]) = Ok true ∧
    (∀ key', key' ≠ "extra" →
       ModuleCollection.get mc' ([] ++ [key'])
       = ModuleCollection.get (_modules dev_store) ([] ++ [key'])).
Proof.
  apply (register_then_lookup (_modules dev_store) [] "extra"
           (ModuleCollection.root (_modules dev_store)) cart_config true).
  reflexivity.
Defined.

Lemma get_from_missing (r m : VuexModule) (p : list string) (k1 : string) :
  ModuleCollection.get_from r p = Ok (Some m) →
  getChild m k1 = None →
  ModuleCollection.get_from r (p ++ [k1]) = Ok None ∧
  ∀ k2 rest, is_Ok (ModuleCollection.get_from r (p ++ k1 :: k2 :: rest)) = false.
Proof.
  revert r. induction p as [|k p IH]; intros r; simpl.
  - by intros [= ->] ->.
  - destruct (getChild r k) as [c|] eqn:Hc; [by apply IH|].
    by destruct p.
Qed.

(** X7. How far a path may miss the tree.  When the module at [p] has no
    child [k1]: [isRegistered] answers false for [p ++ [k1]] and also for
    [p ++ [k1; k2]] (whose parent is the missing module), but raises a
    TypeError for any longer path; [register] and [unregister] at
    [p ++ [k1; k2]] raise a TypeError; and [unregister] at [p ++ [k1]]
    returns the collection as it is, with a warning in a development build
    only. *)
Theorem paths_that_miss (DEV : bool) (mc : ModuleCollection.t) (p : list string)
    (m : VuexModule) (k1 k2 k3 : string) (rest : list string)
    (rawModule : RawModule) (rt : bool) :
  ModuleCollection.get mc p = Ok (Some m) →
  getChild m k1 = None →
  ModuleCollection.isRegistered mc (p ++ [k1]) = Ok false ∧
  ModuleCollection.isRegistered mc (p ++ [k1; k2]) = Ok false ∧
  is_Ok (ModuleCollection.isRegistered mc (p ++ k1 :: k2 :: k3 :: rest)) = false ∧
  is_Ok (ModuleCollection.register mc (p ++ [k1; k2]) rawModule rt) = false ∧
  is_Ok (ModuleCollection.unregister DEV mc (p ++ [k1; k2])) = false ∧
  ModuleCollection.unregister DEV mc (p ++ [k1])
  = Ok (mc, if DEV
            then ["[vuex] trying to unregister module '" +:+ k1
                    +:+ "', which is not registered"]
            else []).
Proof.
  intros Hget Hmiss. unfold ModuleCollection.get in Hget.
  destruct (get_from_missing _ _ _ _ Hget Hmiss) as [Hnone Hthrow].
  assert (E2 : p ++ [k1; k2] = (p ++ [k1]) ++ [k2]) by (by rewrite <- app_assoc).
  destruct (@exists_last _ (k3 :: rest) ltac:(done)) as (ini & lst & Elast).
  assert (E3 : p ++ k1 :: k2 :: k3 :: rest = (p ++ k1 :: k2 :: ini) ++ [lst]).
  { rewrite Elast, <- app_assoc. done. }
  split; [|split; [|split; [|split; [|split]]]].
  - unfold ModuleCollection.isRegistered, ModuleCollection.get.
    rewrite slice_init_snoc, last_key_snoc, Hget. simpl.
    unfold hasChild, alist_has. unfold getChild in Hmiss. by rewrite Hmiss.
  - unfold ModuleCollection.isRegistered, ModuleCollection.get.
    by rewrite E2, slice_init_snoc, Hnone.
  - unfold ModuleCollection.isRegistered, ModuleCollection.get.
    rewrite E3, slice_init_snoc.
    specialize (Hthrow k2 ini).
    by destruct (ModuleCollection.get_from (ModuleCollection.root mc) (p ++ k1 :: k2 :: ini)).
  - unfold ModuleCollection.register.
    by rewrite E2, register_at_snoc, Hnone.
  - unfold ModuleCollection.unregister, ModuleCollection.get.
    by rewrite E2, slice_init_snoc, Hnone.
  - unfold ModuleCollection.unregister, ModuleCollection.get.
    rewrite slice_init_snoc, last_key_snoc, Hget. simpl. by rewrite Hmiss.
Qed.

Lemma paths_that_miss_witness :
  ModuleCollection.isRegistered (_modules dev_store) ([] ++ ["nope"]) = Ok false ∧
  ModuleCollection.isRegistered (_modules dev_store) ([] ++ ["nope"; "a"]) = Ok false ∧
  is_Ok (ModuleCollection.isRegistered (_modules dev_store)
           ([] ++ "nope" :: "a" :: "b" :: [])) = false ∧
  is_Ok (ModuleCollection.register (_modules dev_store) ([] ++ ["nope"; "a"])
           cart_config true) = false ∧
  is_Ok (ModuleCollection.unregister true (_modules dev_store) ([] ++ ["nope"; "a"]))
  = false ∧
  ModuleCollection.unregister true (_modules dev_store) ([] ++ ["nope"])
  = Ok (_modules dev_store,
        ["[vuex] trying to unregister module '" +:+ "nope"
           +:+ "', which is not registered"]).
Proof.
  apply (paths_that_miss true (_modules dev_store) [] (ModuleCollection.root (_modules dev_store))
           "nope" "a" "b" [] cart_config true); reflexivity.
Defined.

Lemma get_from_snoc_inv (r m : VuexModule) (p : list string) (key : string) :
  ModuleCollection.get_from r (p ++ [key]) = Ok (Some m) →
  ∃ parent, ModuleCollection.get_from r p = Ok (Some parent) ∧ getChild parent key = Some m.
Proof.
  revert r. induction p as [|k p IH]; intros r; simpl.
  - destruct (getChild r key) as [c|] eqn:Hc; [|done].
    intros [= ->]. eauto.
  - destruct (getChild r k) as [c|] eqn:Hc; [by apply IH|].
    by destruct (p ++ [key]).
Qed.

Lemma forallb_alist_set {A} (P : string * A → bool) (k : string) (v : A)
    (l : list (string * A)) :
  P (k, v) = true → forallb P l = true → forallb P (alist_set k v l) = true.
Proof.
  intros Hv. induction l as [|[k0 v0] l IH]; simpl.
  - by rewrite Hv.
  - intros [H0 Hl]%andb_true_iff.
    destruct (String.eqb k k0); simpl; rewrite ?Hv, ?H0; simpl; [done|by apply IH].
Qed.

Lemma all_runtime_unfold (b : bool) (m : VuexModule) :
  all_runtime b m =
  Bool.eqb (runtime m) b
  && forallb (fun kc : string * VuexModule => all_runtime b kc.2) (_children m).
Proof. destruct m; reflexivity. Qed.

Lemma module_tree_of_all_runtime (b : bool) (rawModule : RawModule) :
  all_runtime b (module_tree_of rawModule b) = true.
Proof.
  induction rawModule as [raw IH] using RawModule_tree_ind.
  rewrite module_tree_of_unfold.
  assert (H0 : all_runtime b (newModule raw b) = true).
  { rewrite all_runtime_unfold. simpl. by destruct b. }
  revert H0. generalize (newModule raw b) as m0.
  induction IH as [|[k rawc] mods Hc _ IHmods]; intros m0 H0; simpl; [done|].
  apply IHmods. rewrite all_runtime_unfold. rewrite all_runtime_unfold in H0. simpl.
  apply andb_true_iff in H0 as [Hr Hch].
  rewrite Hr. simpl. by apply forallb_alist_set.
Qed.

Lemma all_runtime_get (b : bool) (r m : VuexModule) (path : list string) :
  all_runtime b r = true →
  ModuleCollection.get_from r path = Ok (Some m) →
  runtime m = b.
Proof.
  revert r. induction path as [|k path IH]; intros r; simpl.
  - rewrite all_runtime_unfold. intros [Hr _]%andb_true_iff [= <-].
    by apply Bool.eqb_prop.
  - rewrite all_runtime_unfold. intros [_ Hch]%andb_true_iff.
    destruct (getChild r k) as [c|] eqn:Hc; [|by destruct path].
    apply IH. unfold getChild in Hc.
    rewrite forallb_forall in Hch.
    clear -Hc Hch. induction (_children r) as [|[k0 c0] l IHl]; [done|].
    simpl in Hc. destruct (String.eqb k k0).
    + injection Hc as <-. apply (Hch (k0, c0)). by left.
    + apply IHl; try done. intros x Hx. apply Hch. by right.
Qed.

(** X8. The collection built by the constructor is the module tree of the
    root configuration, and every module of it is static: at every path that
    leads to a module other than the root, [unregister] returns the
    collection as it is, without console output, and the module stays
    registered. *)
Theorem constructed_modules_are_static (DEV : bool) (rawRootModule : RawModule) :
  ∃ mc,
    ModuleCollection.create rawRootModule = Ok mc ∧
    ModuleCollection.root mc = module_tree_of rawRootModule false ∧
    ∀ path m,
      path ≠ [] →
      ModuleCollection.get mc path = Ok (Some m) →
      runtime m = false ∧
      ModuleCollection.unregister DEV mc path = Ok (mc, []) ∧
      ModuleCollection.isRegistered mc path = Ok true.
Proof.
  exists (ModuleCollection.mk (module_tree_of rawRootModule false)).
  split; [unfold ModuleCollection.create; by rewrite register_at_root|].
  split; [done|].
  intros path m Hne Hget.
  assert (Hrt : runtime m = false).
  { eapply all_runtime_get; [apply module_tree_of_all_runtime|exact Hget]. }
  split; [exact Hrt|].
  destruct (exists_last Hne) as (p & key & ->).
  unfold ModuleCollection.get in Hget. simpl in Hget.
  destruct (get_from_snoc_inv _ _ _ _ Hget) as (parent & Hp & Hc).
  apply (unregister_static_module DEV _ _ parent m key); try done.
  - by rewrite slice_init_snoc.
  - apply last_key_snoc.
Qed.

Lemma getChild_removeChild (key : string) (m : VuexModule) :
  NoDup (_children m).*1 → getChild (removeChild key m) key = None.
Proof. intros Hnd. unfold getChild, removeChild. simpl. by apply alist_get_del_eq. Qed.

Lemma getChild_removeChild_ne (key key' : string) (m : VuexModule) :
  key' ≠ key → getChild (removeChild key m) key' = getChild m key'.
Proof. intros Hne. unfold getChild, removeChild. simpl. by apply alist_get_del_ne. Qed.

(** X9. Unregistering a module that was registered at run time, at
    [p ++ [key]] below a parent whose children have distinct keys: the call
    returns without console output, afterwards [get] finds nothing at the
    path and [isRegistered] answers false, and the other children of the
    parent are the ones of before. *)
Theorem unregister_runtime_module (DEV : bool) (mc : ModuleCollection.t)
    (p : list string) (key : string) (parent child : VuexModule) :
  ModuleCollection.get mc p = Ok (Some parent) →
  getChild parent key = Some child →
  runtime child = true →
  NoDup (_children parent).*1 →
  ∃ mc',
    ModuleCollection.unregister DEV mc (p ++ [key]) = Ok (mc', []) ∧
    ModuleCollection.get mc' (p ++ [key]) = Ok None ∧
    ModuleCollection.isRegistered mc' (p ++ [key]) = Ok false ∧
    (∀ key', key' ≠ key →
       ModuleCollection.get mc' (p ++ [key']) = ModuleCollection.get mc (p ++ [key'])).
Proof.
  intros Hget Hchild Hrt Hnd. unfold ModuleCollection.get in Hget.
  eexists. split.
  { unfold ModuleCollection.unregister, ModuleCollection.get.
    rewrite slice_init_snoc, last_key_snoc, Hget. simpl.
    by rewrite Hchild, Hrt. }
  assert (Hparent : ModuleCollection.get_from
                      (ModuleCollection.modify_at (ModuleCollection.root mc) p
                         (removeChild key)) p
                    = Ok (Some (removeChild key parent)))
    by (by apply get_from_modify_at).
  pose proof (getChild_removeChild key parent Hnd) as Hgone.
  destruct (get_from_missing _ _ _ _ Hparent Hgone) as [Hnone _].
  split; [exact Hnone|]. split.
  - unfold ModuleCollection.isRegistered, ModuleCollection.get. simpl.
    rewrite slice_init_snoc, last_key_snoc, Hparent. simpl.
    unfold hasChild, alist_has. unfold getChild in Hgone. by rewrite Hgone.
  - intros key' Hne. unfold ModuleCollection.get. simpl.
    apply (get_from_modify_child_ne _ parent p key key'); [done|done|].
    intros m. by apply getChild_removeChild_ne.
Qed.

(** X10. A module registered at run time below an existing parent, under a
    key the parent did not have, is taken out again by [unregister]: the
    collection is then the one of before the registration. *)
Theorem register_then_unregister (DEV : bool) (mc : ModuleCollection.t)
    (p : list string) (key : string) (parent : VuexModule) (rawModule : RawModule) :
  ModuleCollection.get mc p = Ok (Some parent) →
  getChild parent key = None →
  ∃ mc',
    ModuleCollection.register mc (p ++ [key]) rawModule true = Ok mc' ∧
    ModuleCollection.isRegistered mc' (p ++ [key]) = Ok true ∧
    ModuleCollection.unregister DEV mc' (p ++ [key]) = Ok (mc, []) ∧
    ModuleCollection.isRegistered mc (p ++ [key]) = Ok false.
Proof.
  intros Hget Hfresh. unfold ModuleCollection.get in Hget.
  set (tree := module_tree_of rawModule true).
  exists (ModuleCollection.mk
            (ModuleCollection.modify_at (ModuleCollection.root mc) p (addChild key tree))).
  assert (Hparent : ModuleCollection.get_from
                      (ModuleCollection.modify_at (ModuleCollection.root mc) p
                         (addChild key tree)) p
                    = Ok (Some (addChild key tree parent)))
    by (by apply get_from_modify_at).
  split; [|split; [|split]].
  - unfold ModuleCollection.register.
    by rewrite (register_at_builds true rawModule _ _ _ _ Hget).
  - unfold ModuleCollection.isRegistered, ModuleCollection.get. simpl.
    rewrite slice_init_snoc, last_key_snoc, Hparent. simpl.
    unfold hasChild, alist_has.
    pose proof (getChild_addChild key tree parent) as Hc.
    unfold getChild in Hc. by rewrite Hc.
  - unfold ModuleCollection.unregister, ModuleCollection.get. simpl.
    rewrite slice_init_snoc, last_key_snoc, Hparent. simpl.
    rewrite getChild_addChild.
    destruct (module_tree_of_runtime rawModule true) as (Hrt & _ & _).
    fold tree in Hrt. rewrite Hrt. simpl.
    rewrite (modify_at_twice _ parent) by done.
    rewrite (modify_at_id _ parent); [by destruct mc|done|].
    unfold removeChild, addChild. simpl.
    unfold getChild in Hfresh. rewrite (alist_del_set_fresh _ _ _ Hfresh).
    by destruct parent.
  - unfold ModuleCollection.isRegistered, ModuleCollection.get.
    rewrite slice_init_snoc, last_key_snoc, Hget. simpl.
    unfold hasChild, alist_has. unfold getChild in Hfresh. by rewrite Hfresh.
Qed.

Lemma register_then_unregister_witness :
  ∃ mc',
    ModuleCollection.register (_modules dev_store) ([] ++ ["extra"]) root_config true
    = Ok mc' ∧
    ModuleCollection.isRegistered mc' ([] ++ ["extra"]) = Ok true ∧
    ModuleCollection.unregister true mc' ([] ++ ["extra"]) = Ok (_modules dev_store, []) ∧
    ModuleCollection.isRegistered (_modules dev_store) ([] ++ ["extra"]) = Ok false.
Proof.
  apply (register_then_unregister true (_modules dev_store) [] "extra"
           (ModuleCollection.root (_modules dev_store)) root_config); reflexivity.
Defined.

Lemma unregister_runtime_module_witness :
  ∃ mc',
    ModuleCollection.unregister true grown_modules ([] ++ ["extra"]) = Ok (mc', []) ∧
    ModuleCollection.get mc' ([] ++ ["extra"]) = Ok None ∧
    ModuleCollection.isRegistered mc' ([] ++ ["extra"]) = Ok false ∧
    (∀ key', key' ≠ "extra" →
       ModuleCollection.get mc' ([] ++ [key'])
       = ModuleCollection.get grown_modules ([] ++ [key'])).
Proof.
  apply (unregister_runtime_module true grown_modules [] "extra"
           (ModuleCollection.root grown_modules) (module_tree_of cart_config true)).
  - reflexivity.
  - vm_compute. reflexivity.
  - reflexivity.
  - apply (bool_decide_unpack _). vm_compute. exact I.
Defined.

(** ** Namespaces along a path *)

Lemma getNamespace_from_app (r m : VuexModule) (p q : list string) (ns : string) :
  ModuleCollection.get_from r p = Ok (Some m) →
  ModuleCollection.getNamespace_from r (p ++ q) ns
  = (ns' ← ModuleCollection.getNamespace_from r p ns;
     ModuleCollection.getNamespace_from m q ns').
Proof.
  revert r ns. induction p as [|k p IH]; intros r ns; simpl.
  - by intros [= ->].
  - destruct (getChild r k) as [c|] eqn:Hc; [by apply IH|]. by destruct p.
Qed.

(** X11. The namespace of a child extends the namespace of its parent: by
    [key + '/'] when the child is flagged namespaced, by nothing otherwise.
    For a key that the parent does not have, [getNamespace] raises a
    TypeError (where [get] returns [undefined]). *)
Theorem getNamespace_child (mc : ModuleCollection.t) (p : list string) (m : VuexModule)
    (key : string) :
  ModuleCollection.get mc p = Ok (Some m) →
  ∃ N,
    ModuleCollection.getNamespace mc p = Ok N ∧
    match getChild m key with
    | Some child =>
        ModuleCollection.getNamespace mc (p ++ [key])
        = Ok (N +:+ (if namespaced child then key +:+ "/" else EmptyString))
    | None =>
        is_Ok (ModuleCollection.getNamespace mc (p ++ [key])) = false ∧
        ModuleCollection.get mc (p ++ [key]) = Ok None
    end.
Proof.
  intros Hget. unfold ModuleCollection.get in Hget.
  exists (namespace_of (ModuleCollection.root mc) p).
  split; [by apply (getNamespace_spec _ m)|].
  unfold ModuleCollection.getNamespace, ModuleCollection.get.
  rewrite (getNamespace_from_app _ m) by done.
  rewrite (getNamespace_from_spec _ m) by done. simpl.
  destruct (getChild m key) as [child|] eqn:Hc; [done|].
  split; [done|]. by apply (get_from_missing _ m).
Qed.

Lemma getNamespace_child_witness :
  ∃ N,
    ModuleCollection.getNamespace (_modules dev_store) [] = Ok N ∧
    match getChild (ModuleCollection.root (_modules dev_store)) "cart" with
    | Some child =>
        ModuleCollection.getNamespace (_modules dev_store) ([] ++ ["cart"])
        = Ok (N +:+ (if namespaced child then "cart" +:+ "/" else EmptyString))
    | None =>
        is_Ok (ModuleCollection.getNamespace (_modules dev_store) ([] ++ ["cart"])) = false ∧
        ModuleCollection.get (_modules dev_store) ([] ++ ["cart"]) = Ok None
    end.
Proof.
  apply (getNamespace_child (_modules dev_store) [] (ModuleCollection.root (_modules dev_store))
           "cart").
  reflexivity.
Defined.

(** ** What installation and reset leave alone *)

Lemma keeps_runtime_refl (a : Store) : keeps_runtime a a.
Proof. repeat split; try done. exists []. by rewrite app_nil_r. Qed.

Lemma keeps_runtime_trans (a b c : Store) :
  keeps_runtime a b → keeps_runtime b c → keeps_runtime a c.
Proof.
  intros (H1 & H2 & H3 & H4 & H5 & H6 & H7 & H8 & H9 & evs & Ht)
         (G1 & G2 & G3 & G4 & G5 & G6 & G7 & G8 & G9 & evs' & Gt).
  repeat split; try congruence.
  exists (evs ++ evs'). by rewrite Gt, Ht, app_assoc.
Qed.

Lemma keeps_runtime_emit (evs : list Event) (a : Store) : keeps_runtime a (emit evs a).
Proof. repeat split; try done. by exists evs. Qed.

Lemma keeps_runtime_tables (a b : Store) :
  _committing b = _committing a →
  _actionSubscribers b = _actionSubscribers a →
  _modules b = _modules a →
  _subscribers b = _subscribers a →
  _scope b = _scope a →
  strict b = strict a →
  _state b = _state a →
  getters b = getters a →
  allocated b = allocated a →
  trace b = trace a →
  keeps_runtime a b.
Proof. intros. repeat split; try done. exists []. by rewrite app_nil_r. Qed.

Lemma attach_state_store (DEV : bool) (rootState rootState' : Val) (path : list string)
    (module : VuexModule) (store store' : Store) :
  attach_state DEV rootState path module store = Ok (rootState', store') →
  ∃ evs, store' = emit evs store.
Proof.
  unfold attach_state, _withCommit.
  destruct (getNestedState rootState (slice_init path)) as [parentState|]; simpl; [|done].
  destruct DEV; simpl.
  - destruct (isObject parentState); simpl; [|done].
    destruct (set_member parentState _ _); simpl; [|done].
    intros [= _ <-].
    destruct (match parentState with VObj ps => _ | _ => false end).
    + eexists. destruct store. reflexivity.
    + exists []. destruct store. unfold emit, with_committing. simpl.
      by rewrite app_nil_r.
  - destruct (set_member parentState _ _); simpl; [|done].
    intros [= _ <-]. exists []. destruct store. unfold emit, with_committing. simpl.
    by rewrite app_nil_r.
Qed.

Lemma forEachChild_keeps (fn : VuexModule → string → Val → Store → Result (Val * Store))
    (hot : bool) (children : list (string * VuexModule)) :
  Forall (fun kc : string * VuexModule =>
            ∀ rootState store rootState' store',
              fn kc.2 kc.1 rootState store = Ok (rootState', store') →
              keeps_runtime store store' ∧ (hot = true → rootState' = rootState))
    children →
  ∀ rootState store rootState' store',
    forEachChild fn children rootState store = Ok (rootState', store') →
    keeps_runtime store store' ∧ (hot = true → rootState' = rootState).
Proof.
  induction 1 as [|[k c] children Hc _ IH]; intros rootState store rootState' store'; simpl.
  - intros [= <- <-]. split; [apply keeps_runtime_refl|done].
  - destruct (fn c k rootState store) as [[rs1 store1]|] eqn:Hfn; simpl; [|done].
    intros Hrest.
    destruct (Hc _ _ _ _ Hfn) as [K1 E1]. destruct (IH _ _ _ _ Hrest) as [K2 E2].
    split; [by eapply keeps_runtime_trans|].
    intros Hhot. rewrite (E2 Hhot). by apply E1.
Qed.

(** [installModule] changes nothing of the store but the routing tables, the
    namespace map and the trace; and a hot installation returns the root
    state it was given. *)
Lemma installModule_keeps (DEV : bool) (hot : bool) (module : VuexModule) :
  ∀ store rootState path rootState' store',
    installModule DEV store rootState path module hot = Ok (rootState', store') →
    keeps_runtime store store' ∧ (hot = true → rootState' = rootState).
Proof.
  induction module as [module IH] using VuexModule_tree_ind.
  intros store rootState path rootState' store'.
  rewrite installModule_unfold.
  destruct (ModuleCollection.getNamespace (_modules store) path) as [N|]; simpl; [|done].
  set (store1 := if namespaced module then _ else _).
  assert (H1 : keeps_runtime store store1).
  { subst store1. destruct (namespaced module); [|apply keeps_runtime_refl].
    destruct (bool_decide _ && DEV).
    - eapply keeps_runtime_trans; [eapply (keeps_runtime_emit _ store)|].
      by apply keeps_runtime_tables.
    - by apply keeps_runtime_tables. }
  destruct (if negb _ && negb hot then _ else _) as [[rs2 store2]|] eqn:Hattach;
    simpl; [|done].
  assert (H2 : keeps_runtime store1 store2 ∧ (hot = true → rs2 = rootState)).
  { destruct hot.
    - rewrite andb_false_r in Hattach. injection Hattach as <- <-.
      split; [apply keeps_runtime_refl|done].
    - split; [|done].
      destruct (negb _ && negb false).
      + apply attach_state_store in Hattach as [evs ->]. apply keeps_runtime_emit.
      + injection Hattach as _ <-. apply keeps_runtime_refl. }
  destruct H2 as [H2 E2].
  set (local := mkLocal N path).
  set (store3 := forEachMutation _ module store2).
  assert (H3 : keeps_runtime store2 store3).
  { subst store3. unfold forEachMutation. generalize store2 as st.
    induction (mutations_of module) as [|[K h] l IHl]; intros st; simpl;
      [apply keeps_runtime_refl|].
    eapply keeps_runtime_trans; [|apply IHl]. by apply keeps_runtime_tables. }
  set (store4 := forEachAction _ module store3).
  assert (H4 : keeps_runtime store3 store4).
  { subst store4. unfold forEachAction. generalize store3 as st.
    induction (actions_of module) as [|[K a] l IHl]; intros st; simpl;
      [apply keeps_runtime_refl|].
    eapply keeps_runtime_trans; [|apply IHl]. by apply keeps_runtime_tables. }
  set (store5 := forEachGetter _ module store4).
  assert (H5 : keeps_runtime store4 store5).
  { subst store5. unfold forEachGetter. generalize store4 as st.
    induction (getters_of module) as [|[K g] l IHl]; intros st; simpl;
      [apply keeps_runtime_refl|].
    eapply keeps_runtime_trans; [|apply IHl].
    unfold registerGetter. destruct (_wrappedGetters st !! _).
    - destruct DEV; [apply keeps_runtime_emit|apply keeps_runtime_refl].
    - by apply keeps_runtime_tables. }
  intros Hchildren.
  assert (H6 : keeps_runtime store5 store' ∧ (hot = true → rootState' = rs2)).
  { eapply (forEachChild_keeps _ hot); [|exact Hchildren].
    eapply Forall_impl; [exact IH|]. simpl.
    intros [k c] Hc rs st rs' st'. simpl. apply Hc. }
  destruct H6 as [H6 E6]. split.
  - eapply keeps_runtime_trans; [exact H1|]. eapply keeps_runtime_trans; [exact H2|].
    eapply keeps_runtime_trans; [exact H3|]. eapply keeps_runtime_trans; [exact H4|].
    eapply keeps_runtime_trans; [exact H5|exact H6].
  - intros Hhot. rewrite (E6 Hhot). by apply E2.
Qed.

(** X12. [resetStore], on a constructed store whose module tree has distinct
    child keys, returns normally.  It keeps the state, the module tree, both
    subscriber lists and the committing flag; the computed getters are then
    exactly the wrapped getters of the rebuilt table, in a fresh effect
    scope. *)
Theorem resetStore_keeps_state (DEV hot : bool) (store : Store) (s0 : Val) :
  _state store = Some s0 →
  unique_keys (ModuleCollection.root (_modules store)) = true →
  ∃ store',
    resetStore DEV hot store = Ok (tt, store') ∧
    state store' = Ok s0 ∧
    _modules store' = _modules store ∧
    _subscribers store' = _subscribers store ∧
    _actionSubscribers store' = _actionSubscribers store ∧
    _committing store' = _committing store ∧
    getters store' = _wrappedGetters store' ∧
    _scope store' = Some (allocated store).
Proof.
  intros Hs Huniq. unfold resetStore.
  set (store0 := with_modulesNamespaceMap ∅ _).
  assert (Hs0 : state store0 = Ok s0) by (by apply state_Some).
  rewrite Hs0. simpl.
  pose proof (installModule_hot_total DEV (ModuleCollection.root (_modules store0)) Huniq
                store0 s0 [] eq_refl) as Hok.
  destruct (installModule DEV store0 s0 [] _ true) as [[s1 store1]|] eqn:Hinst; [|done].
  destruct (installModule_keeps _ _ _ _ _ _ _ _ Hinst)
    as [(K1 & K2 & K3 & K4 & K5 & K6 & K7 & K8 & K9 & _) Es].
  rewrite (Es eq_refl). simpl in *.
  eexists. split; [reflexivity|].
  unfold resetStoreState.
  destruct (_scope store1) as [old|]; simpl; by rewrite ?K1, ?K2, ?K3, ?K4, ?K9.
Qed.

Lemma resetStore_keeps_state_witness :
  ∃ store',
    resetStore true false watched_store = Ok (tt, store') ∧
    state store' = Ok initial_state ∧
    _modules store' = _modules watched_store ∧
    _subscribers store' = _subscribers watched_store ∧
    _actionSubscribers store' = _actionSubscribers watched_store ∧
    _committing store' = _committing watched_store ∧
    getters store' = _wrappedGetters store' ∧
    _scope store' = Some (allocated watched_store).
Proof.
  apply (resetStore_keeps_state true false watched_store initial_state);
    vm_compute; reflexivity.
Defined.

(** ** The state step of installModule *)

Lemma getNestedState_app (s : Val) (p q : list string) :
  getNestedState s (p ++ q) = (x ← getNestedState s p; getNestedState x q).
Proof.
  revert s. induction p as [|k p IH]; intros s; simpl; [done|].
  destruct (get_member s k) as [x|]; simpl; [apply IH|done].
Qed.

Lemma getNestedState_undefined (p : list string) (ps : list (string * Val)) :
  getNestedState VUndef p ≠ Ok (VObj ps).
Proof. by destruct p. Qed.

(** Writing into an object reached by [getNestedState] is read back by
    [getNestedState]. *)
Lemma getNestedState_update (s v : Val) (p : list string) (ps : list (string * Val)) :
  getNestedState s p = Ok (VObj ps) →
  getNestedState (update_nested s p v) p = Ok v.
Proof.
  revert s. induction p as [|k p IH]; intros s; simpl; [done|].
  destruct s; simpl; try done;
    try (intros Hbad; by apply getNestedState_undefined in Hbad).
  intros Hget. rewrite alist_get_set_eq. simpl. by apply IH.
Qed.

(** X13. When the state step of a cold installation at [p ++ [key]]
    succeeds, the parent's state is an object, the module's state is read
    back from the state tree at the module's path, and the states under the
    parent's other keys are the ones of before. *)
Theorem attach_state_roundtrip (DEV : bool) (rootState rootState' : Val)
    (p : list string) (key : string) (module : VuexModule) (store store' : Store) :
  attach_state DEV rootState (p ++ [key]) module store = Ok (rootState', store') →
  (∃ ps, getNestedState rootState p = Ok (VObj ps)) ∧
  getNestedState rootState' (p ++ [key]) = Ok (VModule.state module) ∧
  (∀ key', key' ≠ key →
     getNestedState rootState' (p ++ [key']) = getNestedState rootState (p ++ [key'])) ∧
  _state store' = _state store ∧
  _committing store' = _committing store.
Proof.
  intros Hattach.
  destruct (attach_state_store _ _ _ _ _ _ _ Hattach) as [evs ->].
  revert Hattach. unfold attach_state, _withCommit.
  rewrite slice_init_snoc, last_key_snoc. simpl.
  destruct (getNestedState rootState p) as [parentState|] eqn:Hparent; simpl; [|done].
  assert (Hcore : ∀ st1 : Store,
            (parentState' ← set_member parentState key (VModule.state module);
             Ok (update_nested rootState p parentState', st1))
            ≫= (λ '(a, store1), Ok (a, with_committing (_committing store) store1))
            = Ok (rootState', emit evs store) →
            ∃ ps, parentState = VObj ps ∧
                  rootState' = update_nested rootState p
                                 (VObj (alist_set key (VModule.state module) ps))).
  { intros st1. destruct parentState; simpl; try done.
    intros [= <- _]. eauto. }
  intros Hrun.
  assert (Hps : ∃ ps, parentState = VObj ps ∧
                  rootState' = update_nested rootState p
                                 (VObj (alist_set key (VModule.state module) ps))).
  { destruct DEV; simpl in Hrun.
    - destruct (isObject parentState); simpl in Hrun; [|done].
      by eapply Hcore.
    - by eapply Hcore. }
  destruct Hps as (ps & -> & ->).
  split; [eauto|].
  rewrite !getNestedState_app.
  split; [|split; [|done]].
  - rewrite (getNestedState_update _ _ _ _ Hparent). simpl.
    by rewrite alist_get_set_eq.
  - intros key' Hne. rewrite !getNestedState_app.
    rewrite (getNestedState_update _ _ _ _ Hparent), Hparent. simpl.
    by rewrite alist_get_set_ne.
Qed.

Lemma attach_state_roundtrip_witness :
  (∃ ps, getNestedState initial_state [] = Ok (VObj ps)) ∧
  getNestedState
    (VObj [("n", VNum 0); ("cart", VObj [("items", VArr [])]);
           ("misc", VObj [("items", VArr [])]); ("extra", VObj [("items", VArr [])])])
    ([] ++ ["extra"]) = Ok (VModule.state cart_module) ∧
  (∀ key', key' ≠ "extra" →
     getNestedState
       (VObj [("n", VNum 0); ("cart", VObj [("items", VArr [])]);
              ("misc", VObj [("items", VArr [])]); ("extra", VObj [("items", VArr [])])])
       ([] ++ [key'])
     = getNestedState initial_state ([] ++ [key'])) ∧
  _state dev_store = _state dev_store ∧
  _committing dev_store = _committing dev_store.
Proof.
  apply (attach_state_roundtrip true initial_state _ [] "extra" cart_module
           dev_store dev_store).
  vm_compute. reflexivity.
Defined.

(** ** registerModule and unregisterModule *)

Lemma resetStoreState_grows (store : Store) (s : Val) (hot : bool) :
  grows store (resetStoreState (with_state (Some s) store) s hot).
Proof.
  unfold resetStoreState. simpl.
  destruct (_scope store); by apply grows_same_tables.
Qed.

(** X14. When [registerModule(p ++ [key], rawModule)] returns, below an
    existing parent: [hasModule] answers true for the path and the module
    collection holds there the module tree of the configuration; every
    handler and getter key that was in the routing tables is still there; the
    declarations of the new module and of its nested modules are registered
    under their namespaced keys; and the computed getters are those of the
    getter table. *)
Theorem registerModule_registers (DEV : bool) (store store' : Store) (p : list string)
    (key : string) (parent : VuexModule) (rawModule : RawModule) (preserveState : bool) :
  ModuleCollection.get (_modules store) p = Ok (Some parent) →
  registerModule DEV (PathArray (p ++ [key])) rawModule preserveState store
  = Ok (tt, store') →
  hasModule (PathArray (p ++ [key])) store' = Ok true ∧
  ModuleCollection.get (_modules store') (p ++ [key])
  = Ok (Some (module_tree_of rawModule true)) ∧
  (∀ k w, has_mutation store k w → has_mutation store' k w) ∧
  (∀ k w, has_action store k w → has_action store' k w) ∧
  (∀ k, has_getter store k → has_getter store' k) ∧
  (∀ sub m',
     ModuleCollection.get_from (module_tree_of rawModule true) sub = Ok (Some m') →
     registered store' (ModuleCollection.root (_modules store')) ((p ++ [key]) ++ sub) m') ∧
  getters store' = _wrappedGetters store' ∧
  _subscribers store' = _subscribers store.
Proof.
  intros Hget. unfold ModuleCollection.get in Hget.
  unfold registerModule. simpl.
  assert (Hnonempty : bool_decide (p ++ [key] = []) = false)
    by (apply bool_decide_eq_false; by destruct p).
  rewrite Hnonempty, andb_false_r. simpl.
  unfold ModuleCollection.register.
  rewrite (register_at_builds true rawModule _ _ _ _ Hget). simpl.
  set (tree := module_tree_of rawModule true).
  set (modules' := ModuleCollection.mk _).
  set (store1 := with_modules modules' store).
  destruct (state store1) as [state0|] eqn:Hstate0; simpl; [|done].
  assert (Hfound : ModuleCollection.get modules' (p ++ [key]) = Ok (Some tree)).
  { unfold ModuleCollection.get. simpl.
    eapply get_from_app; [by apply get_from_modify_at|]. apply getChild_addChild. }
  rewrite Hfound. simpl.
  destruct (installModule DEV store1 state0 (p ++ [key]) tree preserveState)
    as [[state1 store2]|] eqn:Hinst; simpl; [|done].
  intros [= <-].
  pose proof (installModule_grows _ _ _ _ _ _ _ _ Hinst) as Hg12.
  pose proof (resetStoreState_grows store2 state1 false) as Hg2.
  destruct (installModule_keeps _ _ _ _ _ _ _ _ Hinst)
    as [(K1 & K2 & K3 & K4 & K5 & K6 & K7 & K8 & K9 & _) _].
  assert (Hg : grows store1 (resetStoreState (with_state (Some state1) store2) state1 false))
    by (by eapply grows_trans).
  assert (Hmod : _modules (resetStoreState (with_state (Some state1) store2) state1 false)
                 = modules').
  { destruct Hg as (_ & _ & _ & ->). done. }
  split; [|split; [|split; [|split; [|split; [|split; [|split]]]]]].
  - unfold hasModule. simpl. rewrite Hmod.
    unfold ModuleCollection.isRegistered, ModuleCollection.get. simpl.
    rewrite slice_init_snoc, last_key_snoc.
    rewrite (get_from_modify_at _ parent) by done. simpl.
    unfold hasChild, alist_has.
    pose proof (getChild_addChild key tree parent) as Hc.
    unfold getChild in Hc. by rewrite Hc.
  - by rewrite Hmod.
  - intros k w Hhas. by apply Hg.
  - intros k w Hhas. by apply Hg.
  - intros k Hhas. by apply Hg.
  - intros sub m' Hsub. rewrite Hmod.
    apply (registered_grows store2); [exact Hg2|].
    by apply (installModule_registered DEV preserveState tree store1 state0 _ state1).
  - unfold resetStoreState. simpl. by destruct (_scope store2).
  - unfold resetStoreState. simpl. destruct (_scope store2); simpl; by rewrite K4.
Qed.

Lemma registerModule_registers_witness :
  hasModule (PathArray ([] ++ ["extra"])) grown_store = Ok true ∧
  ModuleCollection.get (_modules grown_store) ([] ++ ["extra"])
  = Ok (Some (module_tree_of cart_config true)) ∧
  (∀ k w, has_mutation watched_store k w → has_mutation grown_store k w) ∧
  (∀ k w, has_action watched_store k w → has_action grown_store k w) ∧
  (∀ k, has_getter watched_store k → has_getter grown_store k) ∧
  (∀ sub m',
     ModuleCollection.get_from (module_tree_of cart_config true) sub = Ok (Some m') →
     registered grown_store (ModuleCollection.root (_modules grown_store))
       (([] ++ ["extra"]) ++ sub) m') ∧
  getters grown_store = _wrappedGetters grown_store ∧
  _subscribers grown_store = _subscribers watched_store.
Proof.
  apply (registerModule_registers true watched_store grown_store [] "extra"
           (ModuleCollection.root (_modules watched_store)) cart_config false).
  - reflexivity.
  - vm_compute. reflexivity.
Defined.
